(** * Face gallery service: embedding cache, nearest match, duplicate guard

    A shallow embedding of the gallery core of the repository:

    - [face_utils]  : src/app/face_utils.py  (image decoding wrappers,
                      [recognize_face], [is_face_duplicate]);
    - [database]    : src/app/database.py    (the PostgreSQL table
                      [mis_personas_pg] and its three operations);
    - [app_main]    : src/app/main.py        (the in-memory cache and the
                      FastAPI handlers that keep it in step with the table);
    - [api]         : src/api.py             (the older single-file service,
                      where the loader writes the module globals itself);
    - [main]        : src/main.py            (a third service, with a cache
                      of its own);
    - [photo_cleaner] : src/app/photo_cleaner.py.

    Conventions of the embedding.

    - numpy [float64] values are read as real numbers ([R]); an embedding is a
      [list R].  NaN and rounding are outside the model.
    - [face_recognition.face_distance] and [numpy.argmin] are library code;
      they are written out from their definitions: the Euclidean norm of the
      difference, and a left-to-right scan that keeps the first minimum.
    - Handlers run in a state-and-exception monad over [World]: a raised
      exception keeps every write made before it, as in Python.
    - [psycopg2.connect] succeeds or fails according to a script carried by
      the world, one entry per attempt, so that a statement quantified over
      worlds covers every pattern of outages.  Statements on an open
      connection succeed.
    - [logger] and [print] calls leave no trace in the model.
    - A function is what Python makes of its [def]: a body in which a name
      is read or assigned before the [global] statement that declares it is
      refused by the compiler, and the function does not exist.  This is the
      case of [startup_event] and [register_face] of src/app/main.py; their
      text is embedded all the same, behind that check.  The check is
      applied function by function: a function whose own body is accepted
      is modelled as its text runs. *)

From Stdlib Require Import Reals Lra List String Ascii ZArith Lia Bool.
From Stdlib Require Import DecimalString Permutation.
Import ListNotations.

Local Open Scope string_scope.
Local Open Scope list_scope.

(** ** Formatting helpers (f-string interpolation of integers) *)

Definition str_of_nat (n : nat) : string :=
  NilZero.string_of_uint (Nat.to_uint n).

Definition str_of_Z (z : Z) : string :=
  NilZero.string_of_int (Z.to_int z).

(** [s in names] for a Python list of strings. *)
Definition str_in (s : string) (names : list string) : bool :=
  existsb (String.eqb s) names.

(** ** Exceptions and results *)

Inductive Exc : Type :=
| Psycopg2Error (msg : string)
| HTTPException (status_code : Z) (detail : string)
| IndexError
| ValueError
| OSError (msg : string).

Inductive Res (A : Type) : Type :=
| Ok (a : A)
| Raise (e : Exc).

Arguments Ok {A} a.
Arguments Raise {A} e.

(** ** The external collaborators

    [face_recognition] (dlib) is a collaborator of the repository: decoding,
    detection and encoding are taken as an interface.  A [inl msg] result
    stands for an exception whose text is [msg].  [http_exc_str] is how the
    web framework renders an [HTTPException] inside an f-string, which
    depends on its version. *)

Definition Embedding : Type := list R.

Class FaceLib : Type := {
  Image : Type;
  Location : Type;
  load_image_file : list Byte.byte -> string + Image;
  face_locations : Image -> string + list Location;
  face_encodings : Image -> list Location -> string + list Embedding;
  http_exc_str : Z -> string -> string
}.

Module face_utils.

Local Open Scope R_scope.

(** Tolerancia para la comparacion de rostros. *)
Definition FACE_RECOGNITION_TOLERANCE : R := 0.6.

Record FaceRecognitionResult : Type := {
  name : string;
  is_known : bool;
  distance : option R
}.

(** [numpy.linalg.norm (a - b)]: both vectors have the dimension of the
    encoder (128); the sum runs over the common positions. *)
Fixpoint sq_diff_sum (a b : Embedding) : R :=
  match a, b with
  | x :: a', y :: b' => (x - y) * (x - y) + sq_diff_sum a' b'
  | _, _ => 0
  end.

Definition euclid (a b : Embedding) : R := sqrt (sq_diff_sum a b).

(** [face_recognition.face_distance(face_encodings, face_to_compare)]. *)
Definition face_distance (encodings : list Embedding) (face_to_compare : Embedding)
  : list R :=
  map (fun e => euclid e face_to_compare) encodings.

(** [numpy.argmin]: scan from the left; a later element replaces the current
    best only when it is strictly smaller. *)
Fixpoint argmin_from (best_i : nat) (best : R) (i : nat) (l : list R) : nat :=
  match l with
  | [] => best_i
  | x :: t =>
      if Rlt_dec x best then argmin_from i x (S i) t
      else argmin_from best_i best (S i) t
  end.

Definition argmin (l : list R) : Res nat :=
  match l with
  | [] => Raise ValueError
  | x :: t => Ok (argmin_from 0 x 1 t)
  end.

(** Python indexing [l[i]] for [i >= 0]. *)
Definition index {A : Type} (l : list A) (i : nat) : Res A :=
  match nth_error l i with
  | Some a => Ok a
  | None => Raise IndexError
  end.

Definition NO_REFERENCE_NAME : string :=
  "No hay rostros de referencia cargados en memoria.".

Definition UNKNOWN_NAME : string := "Desconocido".

Definition recognize_face
  (test_embedding : Embedding)
  (known_face_encodings : list Embedding)
  (known_face_names : list string)
  (tolerance : R) : Res FaceRecognitionResult :=
  match known_face_encodings with
  | [] =>
      Ok {| name := NO_REFERENCE_NAME; is_known := false; distance := None |}
  | _ :: _ =>
      let face_distances := face_distance known_face_encodings test_embedding in
      match argmin face_distances with
      | Raise e => Raise e
      | Ok best_match_index =>
          match index face_distances best_match_index with
          | Raise e => Raise e
          | Ok best_match_distance =>
              if Rle_dec best_match_distance tolerance then
                match index known_face_names best_match_index with
                | Raise e => Raise e
                | Ok nm =>
                    Ok {| name := nm; is_known := true;
                          distance := Some best_match_distance |}
                end
              else
                Ok {| name := UNKNOWN_NAME; is_known := false;
                      distance := Some best_match_distance |}
          end
      end
  end.

Definition is_face_duplicate
  (new_embedding : Embedding)
  (known_face_encodings : list Embedding)
  (known_face_names : list string)
  (tolerance : R) : Res (bool * option string * option R) :=
  match known_face_encodings with
  | [] => Ok (false, None, None)
  | _ :: _ =>
      let face_distances := face_distance known_face_encodings new_embedding in
      match argmin face_distances with
      | Raise e => Raise e
      | Ok best_match_index =>
          match index face_distances best_match_index with
          | Raise e => Raise e
          | Ok best_match_distance =>
              if Rle_dec best_match_distance tolerance then
                match index known_face_names best_match_index with
                | Raise e => Raise e
                | Ok duplicate_name =>
                    Ok (true, Some duplicate_name, Some best_match_distance)
                end
              else Ok (false, None, None)
          end
      end
  end.

Section WithLib.
Context {lib : FaceLib}.

(** [process_image]: the decoded image, or the text stored under
    [info['error']]. *)
Definition process_image (image_data : list Byte.byte) : option Image * option string :=
  match load_image_file image_data with
  | inr image => (Some image, None)
  | inl e => (None, Some ("Error al cargar/decodificar la imagen: " ++ e)%string)
  end.

(** [extract_face_embedding]: (success, embedding, metadata['error']).  The
    first detected face is the one encoded. *)
Definition extract_face_embedding (image_rgb : Image)
  : bool * option Embedding * option string :=
  let failed e :=
    (false, None,
     Some ("Error durante la detección o extracción del embedding: " ++ e)%string) in
  match face_locations image_rgb with
  | inl e => failed e
  | inr [] => (false, None, Some "No se encontraron rostros en la imagen."%string)
  | inr (loc :: _) =>
      match face_encodings image_rgb [loc] with
      | inl e => failed e
      | inr [] => failed "list index out of range"%string
      | inr (face_encoding :: _) => (true, Some face_encoding, None)
      end
  end.

End WithLib.

End face_utils.

(** ** The world: the table, the connection script and the module globals *)

(** A fetched [embedding] column: SQL NULL, a Python list of floats, or any
    other Python value (shown by its [repr]). *)
Inductive EmbeddingData : Type :=
| DbNull
| DbList (v : list R)
| DbOther (repr : string).

Record Row : Type := {
  row_id : Z;
  row_nombre : string;
  row_embedding : EmbeddingData
}.

(** Calls received by the store, newest first. *)
Inductive StoreCall : Type :=
| CallLoad
| CallSave (nombre : string)
| CallDelete (person_id : Z)
| CallFindId (nombre : string).

Record World : Type := {
  table : list Row;
  next_id : Z;
  connects : list bool;
  known_face_encodings : list Embedding;
  known_face_names : list string;
  store_calls : list StoreCall
}.

Definition set_table (t : list Row) (n : Z) (w : World) : World :=
  {| table := t; next_id := n; connects := connects w;
     known_face_encodings := known_face_encodings w;
     known_face_names := known_face_names w;
     store_calls := store_calls w |}.

Definition set_connects (c : list bool) (w : World) : World :=
  {| table := table w; next_id := next_id w; connects := c;
     known_face_encodings := known_face_encodings w;
     known_face_names := known_face_names w;
     store_calls := store_calls w |}.

Definition set_cache (encs : list Embedding) (names : list string) (w : World) : World :=
  {| table := table w; next_id := next_id w; connects := connects w;
     known_face_encodings := encs;
     known_face_names := names;
     store_calls := store_calls w |}.

Definition add_call (c : StoreCall) (w : World) : World :=
  {| table := table w; next_id := next_id w; connects := connects w;
     known_face_encodings := known_face_encodings w;
     known_face_names := known_face_names w;
     store_calls := c :: store_calls w |}.

(** The published gallery, as the pair the handlers assign. *)
Definition cache (w : World) : list Embedding * list string :=
  (known_face_encodings w, known_face_names w).

(** Whether the next [psycopg2.connect] succeeds; an exhausted script means
    a reachable server. *)
Definition connect_ok (w : World) : bool :=
  match connects w with
  | false :: _ => false
  | _ => true
  end.

(** ** State and exceptions *)

Definition M (A : Type) : Type := World -> Res A * World.

Definition ret {A : Type} (a : A) : M A := fun w => (Ok a, w).

Definition bind {A B : Type} (m : M A) (k : A -> M B) : M B :=
  fun w =>
    match m w with
    | (Ok a, w') => k a w'
    | (Raise e, w') => (Raise e, w')
    end.

Definition raise {A : Type} (e : Exc) : M A := fun w => (Raise e, w).

Definition lift {A : Type} (r : Res A) : M A := fun w => (r, w).

Definition get : M World := fun w => (Ok w, w).

Definition modify (f : World -> World) : M unit := fun w => (Ok tt, f w).

(** [try: m  except Exception as e: h e]. *)
Definition try_except {A : Type} (m : M A) (h : Exc -> M A) : M A :=
  fun w =>
    match m w with
    | (Raise e, w') => h e w'
    | r => r
    end.

Declare Scope py_scope.
Delimit Scope py_scope with py.
Notation "x <- m ;; k" := (bind m (fun x => k))
  (at level 61, m at next level, right associativity) : py_scope.
Notation "m ;;; k" := (bind m (fun _ => k))
  (at level 61, right associativity) : py_scope.
Local Open Scope py_scope.

Definition exc_str {lib : FaceLib} (e : Exc) : string :=
  match e with
  | Psycopg2Error msg => msg
  | HTTPException c d => http_exc_str c d
  | IndexError => "list index out of range"
  | ValueError => "attempt to get argmin of an empty sequence"
  | OSError msg => msg
  end.

Definition CONNECT_FAILED : string := "connection refused".

(** ** src/app/database.py *)

Module database.

Definition get_db_connection : M unit :=
  fun w =>
    let w' := set_connects (tl (connects w)) w in
    match connects w with
    | false :: _ => (Raise (Psycopg2Error CONNECT_FAILED), w')
    | _ => (Ok tt, w')
    end.

Definition is_null (d : EmbeddingData) : bool :=
  match d with DbNull => true | _ => false end.

(** [SELECT nombre, embedding FROM mis_personas_pg WHERE embedding IS NOT NULL]. *)
Definition select_not_null (t : list Row) : list (string * EmbeddingData) :=
  map (fun r => (row_nombre r, row_embedding r))
      (filter (fun r => negb (is_null (row_embedding r))) t).

(** The [for nombre, embedding_data in rows] loop, with both lists as
    accumulators. *)
Fixpoint collect_rows (rows : list (string * EmbeddingData))
  (encs : list Embedding) (names : list string) : list Embedding * list string :=
  match rows with
  | [] => (encs, names)
  | (nombre, DbList v) :: rest => collect_rows rest (encs ++ [v]) (names ++ [nombre])
  | (_, _) :: rest => collect_rows rest encs names
  end.

Definition load_known_faces_from_db : M (list Embedding * list string) :=
  modify (add_call CallLoad) ;;;
  get_db_connection ;;;
  w <- get ;;
  ret (collect_rows (select_not_null (table w)) [] []).

Definition has_nombre (nombre : string) (r : Row) : bool :=
  String.eqb (row_nombre r) nombre.

Definition has_id (person_id : Z) (r : Row) : bool :=
  Z.eqb (row_id r) person_id.

Definition update_embedding (person_id : Z) (embedding : list R) (r : Row) : Row :=
  if has_id person_id r
  then {| row_id := row_id r; row_nombre := row_nombre r;
          row_embedding := DbList embedding |}
  else r.

(** [save_face_to_db].  The table is kept as the list of its rows in the
    order they were inserted, and an UPDATE is recorded in place.  That order
    is the model's own: PostgreSQL promises none for a SELECT without ORDER
    BY and usually returns an updated row last.  What is stated of a table
    after an UPDATE therefore speaks of its rows, never of their positions. *)
Definition save_face_to_db (nombre : string) (embedding : list R) : M Z :=
  modify (add_call (CallSave nombre)) ;;;
  get_db_connection ;;;
  w <- get ;;
  match find (has_nombre nombre) (table w) with
  | Some row =>
      let person_id := row_id row in
      modify (set_table (map (update_embedding person_id embedding) (table w))
                        (next_id w)) ;;;
      ret person_id
  | None =>
      let person_id := next_id w in
      modify (set_table
                (table w ++ [{| row_id := person_id; row_nombre := nombre;
                                row_embedding := DbList embedding |}])
                (person_id + 1)%Z) ;;;
      ret person_id
  end.

Definition delete_face_from_db (person_id : Z) : M bool :=
  modify (add_call (CallDelete person_id)) ;;;
  get_db_connection ;;;
  w <- get ;;
  let kept := filter (fun r => negb (has_id person_id r)) (table w) in
  let rowcount := (List.length (table w) - List.length kept)%nat in
  modify (set_table kept (next_id w)) ;;;
  ret (0 <? rowcount)%nat.

(** The dictionary returned by [get_db_status]. *)
Record DbStatus : Type := {
  status : string;
  details : string
}.

Section Status.
Context {lib : FaceLib}.

(** What the driver reports as [conn.isolation_level] on a fresh connection;
    it is [None] or a level according to the driver's version and settings. *)
Variable isolation_level : option Z.

(** [get_db_status]: the probe behind the status page.  Every exception is
    caught; the dictionary is returned in all cases. *)
Definition get_db_status : M DbStatus :=
  try_except
    (get_db_connection ;;;
     match isolation_level with
     | Some _ => ret {| status := "Conectado"; details := "Verificación exitosa" |}
     | None => ret {| status := "Desconectado"; details := "Conexión inactiva" |}
     end)
    (fun e => ret {| status := "Desconectado";
                     details := "Error durante la verificación: " ++ exc_str e |}).

End Status.

End database.

(** ** Requests *)

(** An uploaded file; [upload_read] is what [await file.read()] gives, [inl]
    standing for an exception. *)
Record UploadFile : Type := {
  filename : string;
  content_type : option string;
  upload_read : string + list Byte.byte
}.

(** An entry of [IMAGE_FOLDER.glob('*')]: [img_path.stem], [img_path.suffix]
    and the result of opening and reading it. *)
Record RefPhoto : Type := {
  stem : string;
  suffix : string;
  photo_read : string + list Byte.byte
}.

Definition lower_ascii (c : ascii) : ascii :=
  let n := nat_of_ascii c in
  if ((65 <=? n) && (n <=? 90))%nat then ascii_of_nat (n + 32) else c.

Fixpoint lower (s : string) : string :=
  match s with
  | EmptyString => EmptyString
  | String c t => String (lower_ascii c) (lower t)
  end.

Definition IMAGE_SUFFIXES : list string := [".jpg"; ".jpeg"; ".png"].

(** [f"{x}"] for an optional string. *)
Definition opt_str (o : option string) : string :=
  match o with Some s => s | None => "None" end.

(** [except HTTPException: raise] placed before [except Exception as e]. *)
Definition reraise_http {A : Type} (h : Exc -> M A) (e : Exc) : M A :=
  match e with
  | HTTPException _ _ => raise e
  | _ => h e
  end.

(** ** Python's rule for [global]

    Python compiles a function only if none of the names of a [global]
    statement has been read or assigned earlier in the body, in textual
    order and whatever the control flow; otherwise the [def] is a
    SyntaxError (since Python 3.6, which the f-strings of the sources
    require).  A body is given here by the occurrences of the names its
    [global] statements declare, each with its line in the source. *)

Inductive NameEvent : Type :=
| Reads (line : nat) (name : string)
| Assigns (line : nat) (name : string)
| Global (line : nat) (names : list string).

(** Whether every [global] statement of the body comes before any read or
    assignment of its names; [seen] holds the names met so far. *)
Fixpoint global_ok (seen : list string) (body : list NameEvent) : bool :=
  match body with
  | [] => true
  | Reads _ x :: rest => global_ok (x :: seen) rest
  | Assigns _ x :: rest => global_ok (x :: seen) rest
  | Global _ names :: rest =>
      negb (existsb (fun x => str_in x seen) names) && global_ok seen rest
  end.

(** What Python makes of a [def]: the function, or nothing when it refuses
    the body. *)
Definition py_def {F : Type} (body_names : list NameEvent) (f : F) : option F :=
  if global_ok [] body_names then Some f else None.

(** ** src/app/main.py *)

Module app_main.

Import face_utils.

Record RegisterResponse : Type := {
  message : string;
  person_id : Z;
  nombre : string
}.

Section WithLib.
Context {lib : FaceLib}.

(** [known_face_encodings, known_face_names = load_known_faces_from_db()]:
    both globals are assigned once the call has returned. *)
Definition reload_cache : M unit :=
  loaded <- database.load_known_faces_from_db ;;
  modify (set_cache (fst loaded) (snd loaded)).

(** One turn of the [for img_path in IMAGE_FOLDER.glob('*')] loop of
    [startup_event], on the counters [(registered_count, error_count)]. *)
Definition auto_register_one (p : RefPhoto) (counts : nat * nat) : M (nat * nat) :=
  let '(registered_count, error_count) := counts in
  if negb (str_in (lower (suffix p)) IMAGE_SUFFIXES) then ret counts
  else
    let nombre := stem p in
    match photo_read p with
    | inl _ => ret (registered_count, S error_count)
    | inr image_data =>
        w <- get ;;
        if str_in nombre (known_face_names w) then ret counts
        else
          try_except
            (match process_image image_data with
             | (None, _) => ret (registered_count, S error_count)
             | (Some rgb_image, _) =>
                 match extract_face_embedding rgb_image with
                 | (true, Some face_encoding, _) =>
                     dup <- lift (is_face_duplicate face_encoding
                                    (known_face_encodings w) (known_face_names w)
                                    FACE_RECOGNITION_TOLERANCE) ;;
                     let '(is_duplicate, _, _) := dup in
                     if (is_duplicate : bool) then ret (registered_count, S error_count)
                     else
                       database.save_face_to_db nombre face_encoding ;;;
                       ret (S registered_count, error_count)
                 | _ => ret (registered_count, S error_count)
                 end
             end)
            (fun _ => ret (registered_count, S error_count))
    end.

Fixpoint auto_register (photos : list RefPhoto) (counts : nat * nat) : M (nat * nat) :=
  match photos with
  | [] => ret counts
  | p :: rest =>
      counts' <- auto_register_one p counts ;;
      auto_register rest counts'
  end.

(** The part of [startup_event] after the initial load: the loop over the
    reference photos and the reload that follows it.  The value returned is
    the pair of counters as the loop left them. *)
Definition reconcile (photos : list RefPhoto) : M (nat * nat) :=
  counts <- auto_register photos (0, 0)%nat ;;
  (if ((0 <? fst counts) || (0 <? snd counts))%nat
   then try_except reload_cache (fun _ => ret tt)
   else ret tt) ;;;
  ret counts.

(** The text of [startup_event]: the initial load, then the loop and the
    reload. *)
Definition startup_event_body (photos : list RefPhoto) : M (nat * nat) :=
  try_except reload_cache (fun e => raise e) ;;;
  reconcile photos.

(** The occurrences of the two cache names in [startup_event]: declared
    global and assigned at l.75-76, read in the loop, and declared global a
    second time at l.161. *)
Definition startup_event_names : list NameEvent :=
  [ Global 75 ["known_face_encodings"; "known_face_names"];
    Assigns 76 "known_face_encodings"; Assigns 76 "known_face_names";
    Reads 77 "known_face_names"; Reads 78 "known_face_names";
    Reads 79 "known_face_names";
    Reads 109 "known_face_names"; Reads 115 "known_face_names";
    Reads 139 "known_face_encodings"; Reads 140 "known_face_names";
    Global 161 ["known_face_encodings"; "known_face_names"];
    Assigns 162 "known_face_encodings"; Assigns 162 "known_face_names";
    Reads 163 "known_face_names" ].

(** [startup_event] as Python defines it. *)
Definition startup_event : option (list RefPhoto -> M (nat * nat)) :=
  py_def startup_event_names startup_event_body.

(** The [try] block of [register_face] that runs the duplicate guard. *)
Definition check_duplicate (face_encoding : Embedding) : M unit :=
  w <- get ;;
  dup <- lift (is_face_duplicate face_encoding
                 (known_face_encodings w) (known_face_names w)
                 FACE_RECOGNITION_TOLERANCE) ;;
  let '(is_duplicate, duplicate_name, _) := dup in
  if (is_duplicate : bool)
  then raise (HTTPException 409
                ("Este rostro ya está registrado como '"
                   ++ opt_str duplicate_name ++ "'."))
  else ret tt.

(** Decoding and encoding of an upload, shared by the two POST handlers:
    the image, or the 400 error of the handler. *)
Definition decode_upload (contents : list Byte.byte) (prefix : string) : M Image :=
  match process_image contents with
  | (Some rgb_image, _) => ret rgb_image
  | (None, error_msg) => raise (HTTPException 400 (prefix ++ opt_str error_msg))
  end.

(** The text of [register_face]. *)
Definition register_face_body (nombre : string) (file : UploadFile)
  : M RegisterResponse :=
  contents <- match upload_read file with
              | inr c => ret c
              | inl e => raise (HTTPException 500
                                  ("Error al leer el archivo subido: " ++ e))
              end ;;
  rgb_image <- decode_upload contents "Error al procesar la imagen: " ;;
  face_encoding <- match extract_face_embedding rgb_image with
                   | (true, Some enc, _) => ret enc
                   | (_, _, error_msg) =>
                       raise (HTTPException 400
                                ("No se pudo extraer el rostro de la imagen: "
                                   ++ opt_str error_msg))
                   end ;;
  try_except (check_duplicate face_encoding)
    (fun e => raise (HTTPException 500
                       ("Error interno al verificar duplicados: " ++ exc_str e))) ;;;
  try_except
    (person_id <- database.save_face_to_db nombre face_encoding ;;
     reload_cache ;;;
     ret {| message := "'" ++ nombre ++ "' registrado exitosamente.";
            person_id := person_id;
            nombre := nombre |})
    (fun e => raise (HTTPException 500
                       ("Error en la base de datos al registrar: " ++ exc_str e))).

(** The occurrences of the two cache names in [register_face]: read by the
    duplicate guard at l.218-219, declared global only at l.237. *)
Definition register_face_names : list NameEvent :=
  [ Reads 218 "known_face_encodings"; Reads 219 "known_face_names";
    Global 237 ["known_face_encodings"; "known_face_names"];
    Assigns 238 "known_face_encodings"; Assigns 238 "known_face_names";
    Reads 239 "known_face_names" ].

(** [register_face] as Python defines it. *)
Definition register_face : option (string -> UploadFile -> M RegisterResponse) :=
  py_def register_face_names register_face_body.

(** The same occurrences in the handlers that assign the cache with their
    [global] statement first. *)
Definition delete_face_by_name_names : list NameEvent :=
  [ Global 353 ["known_face_encodings"; "known_face_names"];
    Assigns 354 "known_face_encodings"; Assigns 354 "known_face_names" ].

Definition refresh_db_faces_endpoint_names : list NameEvent :=
  [ Global 402 ["known_face_encodings"; "known_face_names"];
    Assigns 403 "known_face_encodings"; Assigns 403 "known_face_names";
    Reads 404 "known_face_names"; Reads 405 "known_face_names" ].

Definition is_image_type (ct : option string) : bool :=
  match ct with
  | Some s => String.prefix "image/" s
  | None => false
  end.

Definition recognize_face (file : UploadFile) : M FaceRecognitionResult :=
  if negb (is_image_type (content_type file))
  then raise (HTTPException 400
                "Formato de archivo no válido. Se esperaba una imagen.")
  else
    contents <- match upload_read file with
                | inr c => ret c
                | inl e =>
                    raise (HTTPException 500
                             ("Error al leer el archivo subido para reconocimiento: " ++ e))
                end ;;
    rgb_image <- decode_upload contents
                   "Error al procesar la imagen para reconocimiento: " ;;
    match extract_face_embedding rgb_image with
    | (true, Some test_face_encoding, _) =>
        w <- get ;;
        match known_face_encodings w with
        | [] => ret {| name := NO_REFERENCE_NAME; is_known := false;
                       distance := None |}
        | _ :: _ =>
            try_except
              (lift (face_utils.recognize_face test_face_encoding
                       (known_face_encodings w) (known_face_names w)
                       FACE_RECOGNITION_TOLERANCE))
              (fun e => raise (HTTPException 500
                                 ("Error durante la comparación de rostros: "
                                    ++ exc_str e)))
        end
    | _ => ret {| name := "No Rostro Detectado"; is_known := false;
                  distance := None |}
    end.

(** [SELECT id FROM mis_personas_pg WHERE nombre = %s] followed by
    [fetchone], on a connection of its own. *)
Definition find_id_by_name (nombre : string) : M Z :=
  modify (add_call (CallFindId nombre)) ;;;
  database.get_db_connection ;;;
  w <- get ;;
  match find (database.has_nombre nombre) (table w) with
  | Some row => ret (row_id row)
  | None =>
      raise (HTTPException 404
               ("Persona con nombre '" ++ nombre ++ "' no encontrada."))
  end.

Definition delete_face_by_name (nombre : string) : M string :=
  try_except
    (person_id <- find_id_by_name nombre ;;
     success <- database.delete_face_from_db person_id ;;
     if (success : bool) then
       try_except reload_cache (fun _ => ret tt) ;;;
       ret ("Persona '" ++ nombre ++ "' eliminada exitosamente de la DB.")%string
     else
       raise (HTTPException 500 "Error interno al eliminar a la persona."))
    (reraise_http
       (fun e => raise (HTTPException 500
                          ("Error interno al eliminar: " ++ exc_str e)))).

Definition list_known_faces_endpoint : M (list string) :=
  w <- get ;; ret (known_face_names w).

Definition refresh_db_faces_endpoint : M string :=
  try_except
    (reload_cache ;;;
     w <- get ;;
     ret ("Rostros recargados desde la DB. Total: "
            ++ str_of_nat (List.length (known_face_names w)))%string)
    (fun e => raise (HTTPException 500
                       ("Error interno al recargar rostros: " ++ exc_str e))).

(** The dictionary returned by [get_status_endpoint]. *)
Record StatusInfo : Type := {
  api_status : string;
  loaded_faces_count : nat;
  database_connection : string;
  database_details : database.DbStatus;
  status_message : string
}.

Definition get_status_endpoint (isolation_level : option Z) : M StatusInfo :=
  db_status_info <- database.get_db_status isolation_level ;;
  w <- get ;;
  ret {| api_status := "running";
         loaded_faces_count := List.length (known_face_encodings w);
         database_connection := database.status db_status_info;
         database_details := db_status_info;
         status_message := "Listo para reconocer rostros." |}.

End WithLib.

End app_main.

(** OpenCV, used by src/api.py to decode uploads: [cv2.imdecode] gives no
    image ([None]) for bytes it cannot decode; [cv2.cvtColor] turns its BGR
    image into the RGB one the face library reads. *)
Class Cv2Lib {lib : FaceLib} : Type := {
  imdecode : list Byte.byte -> option Image;
  cvtColor : Image -> Image
}.

(** A path on the local disk, with the bytes read from it when it names an
    existing regular file. *)
Record LocalImage : Type := {
  local_image_path : string;
  local_file : option (list Byte.byte)
}.

(** An entry of [os.listdir(IMAGE_FOLDER)]: the file name, its root as
    [os.path.splitext] gives it, and the file behind it. *)
Record FolderFile : Type := {
  file_name : string;
  file_root : string;
  file_image : LocalImage
}.

(** [s.endswith(suffix)]. *)
Definition ends_with (suffix s : string) : bool :=
  (String.length suffix <=? String.length s)%nat &&
  String.eqb (substring (String.length s - String.length suffix)
                (String.length suffix) s) suffix.

(** A call into the face library outside any handler that reads the error:
    [ValueError] stands for the exception it raises, which the code of
    src/api.py never tells from another. *)
Definition lib_call {A : Type} (r : string + A) : M A :=
  match r with
  | inr a => ret a
  | inl _ => raise ValueError
  end.

(** ** src/api.py *)

Module api.

Import face_utils.

(** [get_db_connection] of src/api.py turns the driver's error into an
    [HTTPException]. *)
Definition get_db_connection : M unit :=
  fun w =>
    let w' := set_connects (tl (connects w)) w in
    match connects w with
    | false :: _ =>
        (Raise (HTTPException 500
                  ("No se pudo conectar a la base de datos: " ++ CONNECT_FAILED)),
         w')
    | _ => (Ok tt, w')
    end.

(** [np.array(embedding_data)] of a fetched [REAL[128]] value; a value that
    is not a list has no coordinates. *)
Definition np_array (d : EmbeddingData) : Embedding :=
  match d with DbList v => v | _ => [] end.

Fixpoint append_rows (rows : list (string * EmbeddingData)) : M unit :=
  match rows with
  | [] => ret tt
  | (nombre, embedding_data) :: rest =>
      modify (fun w => set_cache (known_face_encodings w ++ [np_array embedding_data])
                                 (known_face_names w ++ [nombre]) w) ;;;
      append_rows rest
  end.

(** The loader of src/api.py: the two globals are emptied first, then filled
    inside the [try]. *)
Definition load_known_faces_from_db : M unit :=
  modify (set_cache [] []) ;;;
  try_except
    (get_db_connection ;;;
     w <- get ;;
     append_rows (database.select_not_null (table w)))
    (fun e =>
       match e with
       | Psycopg2Error m =>
           raise (HTTPException 500
                    ("Error en la base de datos al cargar rostros: " ++ m))
       | _ => raise e
       end).

Definition refresh_db_faces : M string :=
  load_known_faces_from_db ;;;
  w <- get ;;
  ret ("Rostros recargados desde la DB. Total: "
         ++ str_of_nat (List.length (known_face_names w)))%string.

(** The comparison at the end of [recognize_face] of src/api.py:
    [compare_faces] is [face_distance <= tolerance], element by element.

    [RecognitionResult] declares [distance: float = None] there.  The
    sources fix no version of pydantic: version 1 reads the default as making
    the field optional and accepts [distance=None]; version 2 validates the
    [None] that is passed against [float] and raises ValidationError, a
    ValueError.  [none_is_valid] tells which; it matters on an empty cache
    only, the one place where [classify] passes [None]. *)
Definition compare_faces (known : list Embedding) (face : Embedding) (tolerance : R)
  : list bool :=
  map (fun d => if Rle_dec d tolerance then true else false) (face_distance known face).

Definition classify (none_is_valid : bool) (test_face_encoding : Embedding)
  (w : World) : Res FaceRecognitionResult :=
  match known_face_encodings w with
  | [] =>
      if none_is_valid
      then Ok {| name := NO_REFERENCE_NAME; is_known := false; distance := None |}
      else Raise ValueError
  | _ :: _ =>
      let matches := compare_faces (known_face_encodings w) test_face_encoding
                       FACE_RECOGNITION_TOLERANCE in
      let face_distances := face_distance (known_face_encodings w) test_face_encoding in
      match argmin face_distances with
      | Raise e => Raise e
      | Ok best_match_index =>
          match index matches best_match_index with
          | Raise e => Raise e
          | Ok true =>
              match index (known_face_names w) best_match_index with
              | Raise e => Raise e
              | Ok nm =>
                  match index face_distances best_match_index with
                  | Raise e => Raise e
                  | Ok d => Ok {| name := nm; is_known := true; distance := Some d |}
                  end
              end
          | Ok false =>
              match index face_distances best_match_index with
              | Raise e => Raise e
              | Ok d => Ok {| name := UNKNOWN_NAME; is_known := false;
                              distance := Some d |}
              end
          end
      end
  end.

Record LocalRegisterResponse : Type := {
  message : string;
  nombre : string
}.

(** [UPDATE mis_personas SET embedding = %s WHERE nombre = %s]. *)
Definition set_embedding_by_name (nombre : string) (d : EmbeddingData) (r : Row) : Row :=
  if database.has_nombre nombre r
  then {| row_id := row_id r; row_nombre := row_nombre r; row_embedding := d |}
  else r.

Section WithCv2.
Context {lib : FaceLib} {cv : Cv2Lib}.

(** [_register_face]: there is no duplicate guard, and a photo without a
    face is stored with a NULL embedding. *)
Definition _register_face (nombre : string) (local : LocalImage)
  : M LocalRegisterResponse :=
  match local_file local with
  | None =>
      raise (HTTPException 400
               ("La ruta de imagen '" ++ local_image_path local ++ "' no es válida."))
  | Some foto_bytes =>
      match imdecode foto_bytes with
      | None => raise (HTTPException 400 "No se pudo decodificar la imagen.")
      | Some image =>
          let rgb := cvtColor image in
          locs <- lib_call (face_locations rgb) ;;
          new_embedding_list <-
            match locs with
            | [] => ret DbNull
            | _ :: _ =>
                encs <- lib_call (face_encodings rgb locs) ;;
                emb <- lift (index encs 0) ;;
                ret (DbList emb)
            end ;;
          get_db_connection ;;;
          w <- get ;;
          (if existsb (database.has_nombre nombre) (table w)
           then modify (set_table
                          (map (set_embedding_by_name nombre new_embedding_list) (table w))
                          (next_id w))
           else modify (set_table
                          (table w ++ [{| row_id := next_id w; row_nombre := nombre;
                                          row_embedding := new_embedding_list |}])
                          (next_id w + 1)%Z)) ;;;
          load_known_faces_from_db ;;;
          ret {| message := "'" ++ nombre ++ "' registrado/actualizado.";
                 nombre := nombre |}
      end
  end.

Definition register_face_from_local_path (nombre : string) (local : LocalImage)
  : M LocalRegisterResponse :=
  _register_face nombre local.

Definition is_image_name (file_name : string) : bool :=
  existsb (fun suffix => ends_with suffix (lower file_name)) [".png"; ".jpg"; ".jpeg"].

(** The loop of [startup_event] over the folder: every exception of a
    registration is printed and dropped. *)
Fixpoint register_folder (files : list FolderFile) : M unit :=
  match files with
  | [] => ret tt
  | f :: rest =>
      (if is_image_name (file_name f)
       then try_except (_register_face (file_root f) (file_image f) ;;; ret tt)
                       (fun _ => ret tt)
       else ret tt) ;;;
      register_folder rest
  end.

(** [startup_event]: [os.listdir(IMAGE_FOLDER)] stands outside any [try];
    [listing] is its result, [inl] the text of the OSError it raises when the
    folder is missing, which src/api.py never creates. *)
Definition startup_event (listing : string + list FolderFile) : M unit :=
  load_known_faces_from_db ;;;
  match listing with
  | inl e => raise (OSError e)
  | inr files => register_folder files
  end.

End WithCv2.

Definition delete_face (nombre : string) : M string :=
  try_except
    (get_db_connection ;;;
     w <- get ;;
     let kept := filter (fun r => negb (database.has_nombre nombre r)) (table w) in
     let rowcount := (List.length (table w) - List.length kept)%nat in
     modify (set_table kept (next_id w)) ;;;
     if (0 <? rowcount)%nat then
       load_known_faces_from_db ;;;
       ret ("Persona '" ++ nombre ++ "' eliminada exitosamente de la DB.")%string
     else
       raise (HTTPException 404
                ("Persona con nombre '" ++ nombre ++ "' no encontrada.")))
    (fun e =>
       match e with
       | Psycopg2Error m =>
           raise (HTTPException 500
                    ("Error en la base de datos al eliminar: " ++ m))
       | _ => raise e
       end).

Definition list_known_faces : M (list string) :=
  w <- get ;; ret (known_face_names w).

End api.

(** ** src/main.py

    The third service keeps its own cache, the module global [known_faces],
    a list of dictionaries; it reads and writes the table through
    src/app/database.py. *)

Module main.

Import face_utils.

(** The Python values that reach the loop of [load_known_faces]. *)
Inductive PyVal : Type :=
| PyArray (v : Embedding)
| PyStr (s : string)
| PyList (l : list R).

(** An element of [known_faces]. *)
Record KnownFace : Type := {
  kf_id : PyVal;
  kf_name : PyVal;
  kf_encoding : Embedding
}.

(** The process: the world of the store and the global of the module. *)
Record Server : Type := {
  world : World;
  known_faces : list KnownFace
}.

Definition S (A : Type) : Type := Server -> Res A * Server.

Definition sret {A : Type} (a : A) : S A := fun s => (Ok a, s).

Definition sraise {A : Type} (e : Exc) : S A := fun s => (Raise e, s).

Definition sbind {A B : Type} (m : S A) (k : A -> S B) : S B :=
  fun s =>
    match m s with
    | (Ok a, s') => k a s'
    | (Raise e, s') => (Raise e, s')
    end.

Definition stry {A : Type} (m : S A) (h : Exc -> S A) : S A :=
  fun s =>
    match m s with
    | (Raise e, s') => h e s'
    | r => r
    end.

(** A function of src/app/database.py called from this module. *)
Definition on_store {A : Type} (m : M A) : S A :=
  fun s =>
    let (r, w') := m (world s) in
    (r, {| world := w'; known_faces := known_faces s |}).

Definition read_known_faces : S (list KnownFace) :=
  fun s => (Ok (known_faces s), s).

Definition write_known_faces (l : list KnownFace) : S unit :=
  fun s => (Ok tt, {| world := world s; known_faces := l |}).

Declare Scope srv_scope.
Delimit Scope srv_scope with srv.
Notation "x <~ m ;; k" := (sbind m (fun x => k))
  (at level 61, m at next level, right associativity) : srv_scope.
Notation "m ~;; k" := (sbind m (fun _ => k))
  (at level 61, right associativity) : srv_scope.
Local Open Scope srv_scope.

(** [isinstance(embedding, (list, tuple))]. *)
Definition is_list_or_tuple (v : PyVal) : bool :=
  match v with PyList _ => true | _ => false end.

(** [np.array(embedding)]. *)
Definition as_array (v : PyVal) : Embedding :=
  match v with
  | PyList l => l
  | PyArray a => a
  | PyStr _ => []
  end.

(** [face_id, name, embedding = item]. *)
Definition unpack3 (item : list PyVal) : Res (PyVal * PyVal * PyVal) :=
  match item with
  | [a; b; c] => Ok (a, b, c)
  | _ => Raise ValueError
  end.

(** What [for ... in db_faces] iterates over: [load_known_faces_from_db]
    returns the pair (encodings, names), a tuple of two lists. *)
Definition as_items (db_faces : list Embedding * list string) : list (list PyVal) :=
  [map PyArray (fst db_faces); map PyStr (snd db_faces)].

(** The loop of [load_known_faces], appending to the global. *)
Fixpoint collect_faces (items : list (list PyVal)) : S unit :=
  match items with
  | [] => sret tt
  | item :: rest =>
      match unpack3 item with
      | Raise e => sraise e
      | Ok (face_id, name, embedding) =>
          (if is_list_or_tuple embedding
           then faces <~ read_known_faces ;;
                write_known_faces
                  (faces ++ [{| kf_id := face_id; kf_name := name;
                                kf_encoding := as_array embedding |}])
           else sret tt) ~;;
          collect_faces rest
      end
  end.

Definition load_known_faces : S unit :=
  write_known_faces [] ~;;
  stry (db_faces <~ on_store database.load_known_faces_from_db ;;
        collect_faces (as_items db_faces))
       (fun _ => sret tt).

Definition startup_event : S unit := load_known_faces.

Record RegisterResponse : Type := {
  reg_status : string;
  reg_person_id : Z;
  reg_name : string;
  reg_message : string
}.

Record FaceMatch {lib : FaceLib} : Type := {
  match_person_id : option PyVal;
  match_name : PyVal;
  match_confidence : R;
  match_distance : option R;
  match_location : Location
}.

Record RecognizeResponse {lib : FaceLib} : Type := {
  rec_status : string;
  rec_results : list FaceMatch;
  rec_total_faces : nat
}.

Section WithLib.
Context {lib : FaceLib}.

(** [except HTTPException as he: raise he] before [except Exception]. *)
Definition reraise_http_s {A : Type} (h : Exc -> S A) (e : Exc) : S A :=
  match e with
  | HTTPException _ _ => sraise e
  | _ => h e
  end.

(** [face_recognition.face_encodings(image)]: the faces are located first,
    then encoded. *)
Definition face_encodings_of (image : Image) : string + list Embedding :=
  match face_locations image with
  | inl e => inl e
  | inr locs => face_encodings image locs
  end.

(** [register_face]: a failure of [await file.read()] reaches the outer
    [except Exception] and leaves as the 500 written here. *)
Definition register_face (name : string) (file : UploadFile) : S RegisterResponse :=
  stry
    (match upload_read file with
     | inl e =>
         sraise (HTTPException 500 ("Error interno del servidor: " ++ e))
     | inr contents =>
         match load_image_file contents with
         | inl e => sraise (HTTPException 400 ("Error procesando imagen: " ++ e))
         | inr image =>
             match face_encodings_of image with
             | inl e => sraise (HTTPException 400 ("Error detectando rostros: " ++ e))
             | inr [] =>
                 sraise (HTTPException 400 "No se encontraron rostros en la imagen")
             | inr (face_encoding :: _) =>
                 person_id <~
                   stry (on_store (database.save_face_to_db name face_encoding))
                        (fun e => sraise (HTTPException 500
                                            ("Error de base de datos: " ++ exc_str e))) ;;
                 stry load_known_faces (fun _ => sret tt) ~;;
                 sret {| reg_status := "success";
                         reg_person_id := person_id;
                         reg_name := name;
                         reg_message := "Rostro registrado exitosamente" |}
             end
         end
     end)
    (reraise_http_s
       (fun e => sraise (HTTPException 500
                           ("Error interno del servidor: " ++ exc_str e)))).

Definition UNKNOWN : PyVal := PyStr "Desconocido".

(** The body of the loop of [recognize_face] for one detected face. *)
Definition match_face (faces : list KnownFace) (face_encoding : Embedding)
  (face_location : Location) : Res FaceMatch :=
  match faces with
  | [] =>
      Ok {| match_person_id := None; match_name := UNKNOWN;
            match_confidence := 0; match_distance := None;
            match_location := face_location |}
  | _ :: _ =>
      let face_distances := face_distance (map kf_encoding faces) face_encoding in
      match argmin face_distances with
      | Raise e => Raise e
      | Ok best_match_index =>
          match index face_distances best_match_index with
          | Raise e => Raise e
          | Ok best_match_distance =>
              if Rle_dec best_match_distance 0.6 then
                match index faces best_match_index with
                | Raise e => Raise e
                | Ok face =>
                    Ok {| match_person_id := Some (kf_id face);
                          match_name := kf_name face;
                          match_confidence := 1 - best_match_distance;
                          match_distance := Some best_match_distance;
                          match_location := face_location |}
                end
              else
                Ok {| match_person_id := None; match_name := UNKNOWN;
                      match_confidence := 0;
                      match_distance := Some best_match_distance;
                      match_location := face_location |}
          end
      end
  end.

Fixpoint match_faces (faces : list KnownFace)
  (pairs : list (Embedding * Location)) : Res (list FaceMatch) :=
  match pairs with
  | [] => Ok []
  | (face_encoding, face_location) :: rest =>
      match match_face faces face_encoding face_location with
      | Raise e => Raise e
      | Ok r =>
          match match_faces faces rest with
          | Raise e => Raise e
          | Ok rs => Ok (r :: rs)
          end
      end
  end.

(** [recognize_face]: the whole body stands in one [try] whose only handler
    is [except Exception]. *)
Definition recognize_face (file : UploadFile) : S RecognizeResponse :=
  let internal msg :=
    sraise (HTTPException 500 ("Error interno del servidor: " ++ msg)) in
  match upload_read file with
  | inl e => internal e
  | inr contents =>
      match load_image_file contents with
      | inl e => internal e
      | inr image =>
          match face_locations image with
          | inl e => internal e
          | inr locs =>
              match face_encodings image locs with
              | inl e => internal e
              | inr [] =>
                  internal (http_exc_str 400 "No se encontraron rostros en la imagen")
              | inr (e0 :: encs) =>
                  faces <~ read_known_faces ;;
                  match match_faces faces (combine (e0 :: encs) locs) with
                  | Raise e => internal (exc_str e)
                  | Ok results =>
                      sret {| rec_status := "success";
                              rec_results := results;
                              rec_total_faces := List.length results |}
                  end
              end
          end
      end
  end.

Definition delete_persona (persona_id : Z) : S string :=
  stry
    (success <~ on_store (database.delete_face_from_db persona_id) ;;
     if (success : bool) then
       load_known_faces ~;;
       sret ("Persona con ID " ++ str_of_Z persona_id ++ " eliminada exitosamente.")%string
     else
       sraise (HTTPException 404
                 ("Persona con ID " ++ str_of_Z persona_id ++ " no encontrada.")))
    (fun e => sraise (HTTPException 500
                        ("Error interno del servidor al eliminar persona: "
                           ++ exc_str e))).

End WithLib.

Definition list_faces : S (nat * list (PyVal * PyVal)) :=
  faces <~ read_known_faces ;;
  sret (List.length faces, map (fun face => (kf_id face, kf_name face)) faces).

End main.

(** ** src/app/photo_cleaner.py *)

Module photo_cleaner.

(** An entry of [image_folder.glob('*')]; [removable] tells whether
    [os.remove] succeeds on it. *)
Record Entry : Type := {
  entry_stem : string;
  entry_suffix : string;
  is_file : bool;
  removable : bool
}.

(** Whether the loop tries to remove the entry. *)
Definition is_orphan (database_names : list string) (e : Entry) : bool :=
  is_file e && str_in (lower (entry_suffix e)) IMAGE_SUFFIXES
  && negb (str_in (entry_stem e) database_names).

(** The loop of [cleanup_orphaned_photos]: the entries left in the folder
    and [cleaned_count]. *)
Fixpoint clean_entries (entries : list Entry) (database_names : list string)
  (cleaned_count : nat) : list Entry * nat :=
  match entries with
  | [] => ([], cleaned_count)
  | e :: rest =>
      if is_orphan database_names e then
        if removable e
        then clean_entries rest database_names (S cleaned_count)
        else let (left, n) := clean_entries rest database_names cleaned_count in
             (e :: left, n)
      else let (left, n) := clean_entries rest database_names cleaned_count in
           (e :: left, n)
  end.

(** [cleanup_orphaned_photos]: [folder] is [None] when the path is not a
    directory, and nothing is done then. *)
Definition cleanup_orphaned_photos (folder : option (list Entry))
  (database_names : list string) : option (list Entry) * nat :=
  match folder with
  | None => (None, 0%nat)
  | Some entries =>
      let (left, n) := clean_entries entries database_names 0 in
      (Some left, n)
  end.

End photo_cleaner.

(** ** The service as a transition system *)

(** The world once a connection attempt has been consumed. *)
Definition connected (w : World) : World :=
  set_connects (tl (connects w)) w.

(** The gallery a successful load builds from a table. *)
Definition gallery_of (t : list Row) : list Embedding * list string :=
  database.collect_rows (database.select_not_null t) [] [].

(** The (name, vector) pairs that the loading loop keeps. *)
Definition listed (rows : list (string * EmbeddingData)) : list (string * Embedding) :=
  flat_map (fun row => match snd row with
                       | DbList v => [(fst row, v)]
                       | _ => []
                       end) rows.

Definition is_load (c : StoreCall) : bool :=
  match c with CallLoad => true | _ => false end.

(** Number of gallery loads the store has been asked for. *)
Definition count_loads (calls : list StoreCall) : nat :=
  List.length (filter is_load calls).

Inductive Request : Type :=
| ReqStartup (photos : list RefPhoto)
| ReqRegister (nombre : string) (file : UploadFile)
| ReqRecognize (file : UploadFile)
| ReqDelete (nombre : string)
| ReqList
| ReqRefresh.

Section Transitions.
Context {lib : FaceLib}.

(** The world left by a handler, whatever it answers; a request whose
    handler Python did not define is served by nobody and leaves the world
    as it is. *)
Definition handle (r : Request) (w : World) : World :=
  match r with
  | ReqStartup photos =>
      match app_main.startup_event with
      | Some startup_event => snd (startup_event photos w)
      | None => w
      end
  | ReqRegister nombre file =>
      match app_main.register_face with
      | Some register_face => snd (register_face nombre file w)
      | None => w
      end
  | ReqRecognize file => snd (app_main.recognize_face file w)
  | ReqDelete nombre => snd (app_main.delete_face_by_name nombre w)
  | ReqList => snd (app_main.list_known_faces_endpoint w)
  | ReqRefresh => snd (app_main.refresh_db_faces_endpoint w)
  end.

(** Worlds the service can be in: it boots with both globals empty, handles
    requests one after the other, and meanwhile the table and the server's
    availability may change under it. *)
Inductive reachable : World -> Prop :=
| reach_boot : forall t n script,
    reachable {| table := t; next_id := n; connects := script;
                 known_face_encodings := []; known_face_names := [];
                 store_calls := [] |}
| reach_request : forall w r, reachable w -> reachable (handle r w)
| reach_store : forall w t n script,
    reachable w -> reachable (set_table t n (set_connects script w)).

(** A run of the service: the worlds it has passed through, newest first,
    with the same steps as [reachable]. *)
Inductive run : list World -> Prop :=
| run_boot : forall t n script,
    run [{| table := t; next_id := n; connects := script;
            known_face_encodings := []; known_face_names := [];
            store_calls := [] |}]
| run_request : forall w past r,
    run (w :: past) -> run (handle r w :: w :: past)
| run_store : forall w past t n script,
    run (w :: past) -> run (set_table t n (set_connects script w) :: w :: past).

End Transitions.

(** Whether a row's embedding is a list: the rows behind a loaded gallery. *)
Definition list_valued (r : Row) : bool :=
  match row_embedding r with DbList _ => true | _ => false end.

(** A computation respects a relation on worlds when the world it leaves is
    related to the one it started in, whatever it answers. *)
Definition respects (Rel : World -> World -> Prop) {A : Type} (m : M A) : Prop :=
  forall w, Rel w (snd (m w)).

(** A stand-in for the face library, for running the handlers on concrete
    requests: an image is its bytes, a face is found unless the first byte is
    zero, and the vector has the single coordinate (second byte) / 10. *)
Definition byte_lib : FaceLib := {|
  Image := list Byte.byte;
  Location := unit;
  load_image_file := fun data =>
    match data with
    | [] => inl "cannot identify image file"
    | _ => inr data
    end;
  face_locations := fun img =>
    match img with
    | Byte.x00 :: _ => inr []
    | _ => inr [tt]
    end;
  face_encodings := fun img locs =>
    inr (map (fun _ => [(IZR (Z.of_N (Byte.to_N (nth 1 img Byte.x00))) / 10)%R]) locs);
  http_exc_str := fun c d => (str_of_Z c ++ ": " ++ d)%string
|}.

(** ** Concrete worlds and requests *)

Definition alice_row : Row :=
  {| row_id := 1; row_nombre := "alice"; row_embedding := DbList [0%R] |}.

Definition bob_row : Row :=
  {| row_id := 2; row_nombre := "bob"; row_embedding := DbNull |}.

(** Alice is enrolled and published; Bob has a row without an embedding. *)
Definition world_alice : World :=
  {| table := [alice_row; bob_row]; next_id := 3; connects := [];
     known_face_encodings := [[0%R]]; known_face_names := ["alice"];
     store_calls := [] |}.

(** The same world with the database server unreachable. *)
Definition world_down : World := set_connects [false] world_alice.

(** The same table before anything was loaded. *)
Definition world_boot : World :=
  {| table := [alice_row; bob_row]; next_id := 3; connects := [];
     known_face_encodings := []; known_face_names := [];
     store_calls := [] |}.

(** A gallery of two one-dimensional vectors. *)
Definition gallery_encs : list Embedding := [[0%R]; [1%R]].
Definition gallery_names : list string := ["alice"; "bob"].

(** An upload for [byte_lib]: a face at distance 0.5 from Alice's vector. *)
Definition upload_near : UploadFile :=
  {| filename := "near.jpg"; content_type := Some "image/jpeg";
     upload_read := inr [Byte.x01; Byte.x05] |}.

(** A stand-in for OpenCV over [byte_lib]: any non-empty byte string
    decodes, to itself, and the colour conversion changes nothing. *)
Definition byte_cv2 : @Cv2Lib byte_lib :=
  @Build_Cv2Lib byte_lib
    (fun data : list Byte.byte =>
       match data return option (list Byte.byte) with
       | [] => None
       | _ => Some data
       end)
    (fun image : list Byte.byte => image).

(** The match that recognising a face at 0.3 finds in the gallery of two. *)
Definition alice_match : face_utils.FaceRecognitionResult :=
  {| face_utils.name := "alice"; face_utils.is_known := true;
     face_utils.distance := Some 0.3%R |}.

(** An upload in which no face is found. *)
Definition upload_no_face : UploadFile :=
  {| filename := "wall.jpg"; content_type := Some "image/jpeg";
     upload_read := inr [Byte.x00] |}.

(** The store answers the first connection and refuses the second; and the
    same with one more connection answered. *)
Definition world_flaky : World := set_connects [true; false] world_alice.

Definition world_flaky2 : World := set_connects [true; true; false] world_alice.

(** Files on the local disk for src/api.py: a wall, and Alice's own face. *)
Definition local_no_face : LocalImage :=
  {| local_image_path := "/photos/alice.jpg"; local_file := Some [Byte.x00] |}.

Definition local_same : LocalImage :=
  {| local_image_path := "/photos/carol.jpg";
     local_file := Some [Byte.x01; Byte.x00] |}.

Definition folder_two : list FolderFile :=
  [ {| file_name := "carol.JPG"; file_root := "carol"; file_image := local_same |};
    {| file_name := "gone.png"; file_root := "gone";
       file_image := {| local_image_path := "/photos/gone.png";
                        local_file := None |} |} ].

(** The server of src/main.py after its startup on Alice's table. *)
Definition server_alice : main.Server :=
  {| main.world := world_alice; main.known_faces := [] |}.

(** * Properties *)

(** ** Distances and the arg-min scan *)

Section MatchEngine.

Import face_utils.
Local Open Scope R_scope.

Lemma sq_diff_sum_nonneg : forall a b, 0 <= sq_diff_sum a b.
Proof.
  induction a as [|x a IH]; intros [|y b]; simpl; try lra.
  specialize (IH b). pose proof (Rle_0_sqr (x - y)) as Hsq.
  unfold Rsqr in Hsq. lra.
Qed.

Lemma sq_diff_sum_refl : forall e, sq_diff_sum e e = 0.
Proof.
  induction e as [|x e IH]; simpl; [reflexivity|]. rewrite IH. ring.
Qed.

Lemma euclid_refl : forall e, euclid e e = 0.
Proof.
  intros e. unfold euclid. rewrite sq_diff_sum_refl. apply sqrt_0.
Qed.

Lemma euclid_nonneg : forall a b, 0 <= euclid a b.
Proof. intros; apply sqrt_pos. Qed.

(** On vectors of one dimension the distance is zero only between equal
    vectors; in general this needs equal lengths. *)
Lemma euclid_zero_eq :
  forall a b, List.length a = List.length b -> euclid a b = 0 -> a = b.
Proof.
  unfold euclid.
  induction a as [|x a IH]; intros [|y b] Hlen Hz; simpl in *; try discriminate; auto.
  pose proof (sq_diff_sum_nonneg a b) as Hs.
  pose proof (Rle_0_sqr (x - y)) as Hsq. unfold Rsqr in Hsq.
  apply sqrt_eq_0 in Hz; [|lra].
  assert (Hx : (x - y) * (x - y) = 0) by lra.
  assert (Ht : sq_diff_sum a b = 0) by lra.
  assert (x = y).
  { destruct (Rmult_integral _ _ Hx); lra. }
  subst y. f_equal.
  apply IH; [lia|]. rewrite Ht. apply sqrt_0.
Qed.

Lemma euclid_1d : forall x y, euclid [x] [y] = Rabs (x - y).
Proof.
  intros. unfold euclid. simpl. rewrite Rplus_0_r.
  change ((x - y) * (x - y)) with (Rsqr (x - y)). apply sqrt_Rsqr_abs.
Qed.

Lemma face_distance_length :
  forall encs q, List.length (face_distance encs q) = List.length encs.
Proof. intros; unfold face_distance; apply length_map. Qed.

Lemma face_distance_nth_error :
  forall encs q i e,
    nth_error encs i = Some e ->
    nth_error (face_distance encs q) i = Some (euclid e q).
Proof.
  intros encs q i e H. unfold face_distance.
  rewrite nth_error_map, H. reflexivity.
Qed.

(** The scan either keeps the incoming best, when nothing to the right is
    strictly smaller, or stops on the first position of the least element. *)
Lemma argmin_from_spec :
  forall l best_i best i,
    (argmin_from best_i best i l = best_i /\ Forall (fun x => best <= x) l) \/
    (exists k,
        argmin_from best_i best i l = (i + k)%nat /\
        (k < List.length l)%nat /\
        nth k l 0 < best /\
        (forall j, (j < k)%nat -> nth k l 0 < nth j l 0) /\
        Forall (fun x => nth k l 0 <= x) l).
Proof.
  induction l as [|x t IH]; intros best_i best i; simpl.
  - left. split; [reflexivity | constructor].
  - destruct (Rlt_dec x best) as [Hlt | Hge].
    + destruct (IH i x (S i)) as [[Hr Hall] | (k & Hr & Hk & Hv & Hfirst & Hall)].
      * right. exists 0%nat. rewrite Hr, Nat.add_0_r. simpl.
        repeat split; try lia; try assumption.
        constructor; [lra | assumption].
      * right. exists (S k). rewrite Hr. simpl.
        repeat split; try lia; try lra.
        -- intros [|j] Hj; [assumption | apply Hfirst; lia].
        -- constructor; [lra | assumption].
    + assert (Hle : best <= x) by lra.
      destruct (IH best_i best (S i)) as [[Hr Hall] | (k & Hr & Hk & Hv & Hfirst & Hall)].
      * left. split; [assumption | constructor; assumption].
      * right. exists (S k). rewrite Hr. simpl.
        repeat split; try lia; try lra.
        -- intros [|j] Hj; [lra | apply Hfirst; lia].
        -- constructor; [lra | assumption].
Qed.

Lemma Forall_nth_le :
  forall (l : list R) (m : R),
    Forall (fun x => m <= x) l -> forall j, (j < List.length l)%nat -> m <= nth j l 0.
Proof.
  intros l m H j Hj. rewrite Forall_forall in H. apply H. apply nth_In; assumption.
Qed.

(** [numpy.argmin] on a non-empty array: the index exists, it holds a least
    element, and every earlier element is strictly larger. *)
Lemma argmin_spec :
  forall l, l <> [] ->
    exists i,
      argmin l = Ok i /\
      (i < List.length l)%nat /\
      (forall j, (j < List.length l)%nat -> nth i l 0 <= nth j l 0) /\
      (forall j, (j < i)%nat -> nth i l 0 < nth j l 0).
Proof.
  intros [|x t] Hne; [congruence|]. simpl.
  destruct (argmin_from_spec t 0%nat x 1%nat)
    as [[Hr Hall] | (k & Hr & Hk & Hv & Hfirst & Hall)].
  - exists 0%nat. rewrite Hr. simpl. repeat split; try lia.
    intros [|j] Hj; [lra | apply Forall_nth_le; [assumption | lia]].
  - exists (S k). rewrite Hr. simpl. repeat split; try lia.
    + intros [|j] Hj; [lra | apply Forall_nth_le; [assumption | lia]].
    + intros [|j] Hj; [assumption | apply Hfirst; lia].
Qed.

Lemma index_nth :
  forall (l : list R) i, (i < List.length l)%nat -> index l i = Ok (nth i l 0).
Proof.
  intros l i Hi. unfold index.
  rewrite (nth_error_nth' l 0 Hi). reflexivity.
Qed.

End MatchEngine.

Section BestMatch.

Import face_utils.
Local Open Scope R_scope.

(** What the two comparisons of src/app/face_utils.py compute on a gallery
    that is not empty: the first entry at the least distance decides both. *)
Lemma best_match :
  forall q encs names tol,
    List.length names = List.length encs ->
    encs <> [] ->
    exists i ei ni,
      nth_error encs i = Some ei /\
      nth_error names i = Some ni /\
      (forall j ej, nth_error encs j = Some ej -> euclid ei q <= euclid ej q) /\
      (forall j ej, (j < i)%nat -> nth_error encs j = Some ej ->
                    euclid ei q < euclid ej q) /\
      recognize_face q encs names tol =
        Ok (if Rle_dec (euclid ei q) tol
            then {| name := ni; is_known := true; distance := Some (euclid ei q) |}
            else {| name := UNKNOWN_NAME; is_known := false;
                    distance := Some (euclid ei q) |}) /\
      is_face_duplicate q encs names tol =
        Ok (if Rle_dec (euclid ei q) tol
            then (true, Some ni, Some (euclid ei q))
            else (false, None, None)).
Proof.
  intros q encs names tol Hlen Hne.
  assert (Hd : face_distance encs q <> []).
  { intro E. apply Hne. apply length_zero_iff_nil.
    rewrite <- (face_distance_length encs q), E. reflexivity. }
  destruct (argmin_spec _ Hd) as (i & Harg & Hi & Hmin & Hfirst).
  rewrite face_distance_length in Hi.
  destruct (nth_error encs i) as [ei|] eqn:Hei.
  2:{ apply nth_error_None in Hei. lia. }
  destruct (nth_error names i) as [ni|] eqn:Hni.
  2:{ apply nth_error_None in Hni. lia. }
  assert (Hnth : forall j ej, nth_error encs j = Some ej ->
                   nth j (face_distance encs q) 0 = euclid ej q).
  { intros j ej Hj. apply nth_error_nth. apply face_distance_nth_error. assumption. }
  assert (Hidx : index (face_distance encs q) i = Ok (euclid ei q)).
  { rewrite index_nth by (rewrite face_distance_length; assumption).
    rewrite (Hnth i ei Hei). reflexivity. }
  assert (Hnm : index names i = Ok ni).
  { unfold index. rewrite Hni. reflexivity. }
  exists i, ei, ni.
  split; [assumption|]. split; [assumption|].
  split; [|split; [|split]].
  - intros j ej Hj.
    rewrite <- (Hnth i ei Hei), <- (Hnth j ej Hj). apply Hmin.
    rewrite face_distance_length. apply nth_error_Some. congruence.
  - intros j ej Hji Hj.
    rewrite <- (Hnth i ei Hei), <- (Hnth j ej Hj). apply Hfirst. assumption.
  - destruct encs as [|e0 encs']; [congruence|].
    unfold recognize_face. cbv beta iota zeta.
    rewrite Harg, Hidx.
    destruct (Rle_dec (euclid ei q) tol); [rewrite Hnm|]; reflexivity.
  - destruct encs as [|e0 encs']; [congruence|].
    unfold is_face_duplicate. cbv beta iota zeta.
    rewrite Harg, Hidx.
    destruct (Rle_dec (euclid ei q) tol); [rewrite Hnm|]; reflexivity.
Qed.

Lemma Rle_dec_true :
  forall (A : Type) (x y : R) (a b : A), x <= y -> (if Rle_dec x y then a else b) = a.
Proof. intros. destruct (Rle_dec x y); [reflexivity | contradiction]. Qed.

Lemma Rle_dec_false :
  forall (A : Type) (x y : R) (a b : A), y < x -> (if Rle_dec x y then a else b) = b.
Proof. intros. destruct (Rle_dec x y); [lra | reflexivity]. Qed.

End BestMatch.

(** ** The match engine (src/app/face_utils.py, [recognize_face]) *)

Section Classification.

Import face_utils.
Local Open Scope R_scope.

(** C3.  Classification of a query against a snapshot given as two parallel
    lists.  On an empty snapshot the result is the "no reference gallery"
    sentinel, not known and without a distance.  Otherwise some entry [i] is
    at the least Euclidean distance [d] from the query; the result is that
    entry's name, known, with distance [d] when [d <= tolerance], and the
    unknown label ("Desconocido"), not known, with distance [d] when
    [d > tolerance]. *)
Theorem recognize_face_classifies :
  forall q encs names tol,
    List.length names = List.length encs ->
    (encs = [] ->
     recognize_face q encs names tol =
       Ok {| name := NO_REFERENCE_NAME; is_known := false; distance := None |}) /\
    (encs <> [] ->
     exists i ei ni,
       nth_error encs i = Some ei /\
       nth_error names i = Some ni /\
       (forall e, In e encs -> euclid ei q <= euclid e q) /\
       (euclid ei q <= tol ->
        recognize_face q encs names tol =
          Ok {| name := ni; is_known := true; distance := Some (euclid ei q) |}) /\
       (tol < euclid ei q ->
        recognize_face q encs names tol =
          Ok {| name := UNKNOWN_NAME; is_known := false;
                distance := Some (euclid ei q) |})).
Proof.
  intros q encs names tol Hlen. split.
  - intros ->. reflexivity.
  - intros Hne.
    destruct (best_match q encs names tol Hlen Hne)
      as (i & ei & ni & Hei & Hni & Hmin & _ & Hrec & _).
    exists i, ei, ni. split; [assumption|]. split; [assumption|].
    split; [|split].
    + intros e Hin. apply In_nth_error in Hin. destruct Hin as [j Hj].
      apply (Hmin j e Hj).
    + intros Hle. rewrite Hrec. rewrite Rle_dec_true by assumption. reflexivity.
    + intros Hgt. rewrite Hrec. rewrite Rle_dec_false by assumption. reflexivity.
Qed.

(** C4.  On a snapshot that is not empty the entry that decides the result
    is the earliest one at the least distance: every entry at that distance
    has an index at least as large, and of two entries at equal distance the
    later one is never selected.  Within the tolerance the result carries the
    selected entry's name; beyond it, its distance under the unknown label. *)
Theorem tie_break_earliest :
  forall q e0 rest names tol,
    List.length names = List.length (e0 :: rest) ->
    exists i ei ni,
      nth_error (e0 :: rest) i = Some ei /\
      nth_error names i = Some ni /\
      (forall j ej, nth_error (e0 :: rest) j = Some ej -> euclid ei q <= euclid ej q) /\
      (forall j ej, nth_error (e0 :: rest) j = Some ej ->
                    euclid ej q = euclid ei q -> (i <= j)%nat) /\
      (forall j1 j2 e1 e2,
          (j1 < j2)%nat ->
          nth_error (e0 :: rest) j1 = Some e1 ->
          nth_error (e0 :: rest) j2 = Some e2 ->
          euclid e1 q = euclid e2 q -> i = j2 -> False) /\
      (euclid ei q <= tol ->
       recognize_face q (e0 :: rest) names tol =
         Ok {| name := ni; is_known := true; distance := Some (euclid ei q) |}) /\
      (tol < euclid ei q ->
       recognize_face q (e0 :: rest) names tol =
         Ok {| name := UNKNOWN_NAME; is_known := false;
               distance := Some (euclid ei q) |}).
Proof.
  intros q e0 rest names tol Hlen.
  assert (Hne : e0 :: rest <> []) by discriminate.
  destruct (best_match q (e0 :: rest) names tol Hlen Hne)
    as (i & ei & ni & Hei & Hni & Hmin & Hfirst & Hrec & _).
  exists i, ei, ni. split; [assumption|]. split; [assumption|].
  split; [assumption|]. split; [|split; [|split]].
  - intros j ej Hj Heq.
    destruct (le_lt_dec i j) as [Hle | Hlt]; [assumption|].
    pose proof (Hfirst j ej Hlt Hj). lra.
  - intros j1 j2 e1 e2 Hlt H1 H2 Heq ->.
    rewrite Hei in H2. injection H2 as <-.
    pose proof (Hfirst j1 e1 Hlt H1). lra.
  - intros Hle. rewrite Hrec. rewrite Rle_dec_true by assumption. reflexivity.
  - intros Hgt. rewrite Hrec. rewrite Rle_dec_false by assumption. reflexivity.
Qed.

(** C5, as the code has it.  The distance of an embedding to itself is
    zero.  Hence, when entry [i] of the snapshot holds the query vector and
    the tolerance is not negative, recognition answers known with distance
    zero and the name of the earliest entry at distance zero from the query:
    entry [j <= i], before which every entry is at a positive distance,
    whose vector is the query (vectors of one dimension), and which is entry
    [i] itself when no earlier entry coincides with the query. *)
Theorem recognize_enrolled_vector :
  (forall e, euclid e e = 0) /\
  (forall q encs names tol i,
      0 <= tol ->
      List.length names = List.length encs ->
      nth_error encs i = Some q ->
      exists j ej nj,
        (j <= i)%nat /\
        nth_error encs j = Some ej /\
        nth_error names j = Some nj /\
        euclid ej q = 0 /\
        (forall k ek, (k < j)%nat -> nth_error encs k = Some ek -> 0 < euclid ek q) /\
        (List.length ej = List.length q -> ej = q) /\
        ((forall k ek, (k < i)%nat -> nth_error encs k = Some ek -> 0 < euclid ek q) ->
         j = i) /\
        recognize_face q encs names tol =
          Ok {| name := nj; is_known := true; distance := Some 0 |}).
Proof.
  split; [exact euclid_refl|].
  intros q encs names tol i Htol Hlen Hi.
  assert (Hne : encs <> []).
  { intros ->. destruct i; discriminate. }
  destruct (best_match q encs names tol Hlen Hne)
    as (j & ej & nj & Hej & Hnj & Hmin & Hfirst & Hrec & _).
  assert (Hz : euclid ej q = 0).
  { pose proof (Hmin i q Hi) as Hle. rewrite euclid_refl in Hle.
    pose proof (euclid_nonneg ej q). lra. }
  assert (Hji : (j <= i)%nat).
  { destruct (le_lt_dec j i) as [Hle | Hlt]; [assumption|].
    pose proof (Hfirst i q Hlt Hi) as Hlt'. rewrite euclid_refl in Hlt'. lra. }
  exists j, ej, nj. split; [assumption|]. split; [assumption|].
  split; [assumption|]. split; [assumption|]. split; [|split; [|split]].
  - intros k ek Hk Hek. pose proof (Hfirst k ek Hk Hek). lra.
  - intros Hl. apply euclid_zero_eq; assumption.
  - intros Hpos. destruct (Nat.eq_dec j i) as [-> | Hneq]; [reflexivity|].
    assert (Hlt : (j < i)%nat) by lia.
    pose proof (Hpos j ej Hlt Hej). lra.
  - rewrite Hrec, Hz. rewrite Rle_dec_true by assumption. reflexivity.
Qed.

End Classification.

(** ** The loader (src/app/database.py, [load_known_faces_from_db]) *)

Section Loader.

Lemma collect_rows_listed :
  forall rows encs names,
    database.collect_rows rows encs names =
      (encs ++ map snd (listed rows), names ++ map fst (listed rows)).
Proof.
  induction rows as [|[nombre d] rest IH]; intros encs names; simpl.
  - rewrite !app_nil_r. reflexivity.
  - destruct d; simpl; rewrite IH; try reflexivity.
    rewrite <- !app_assoc. reflexivity.
Qed.

Lemma gallery_of_listed :
  forall t,
    gallery_of t =
      (map snd (listed (database.select_not_null t)),
       map fst (listed (database.select_not_null t))).
Proof. intros t. unfold gallery_of. rewrite collect_rows_listed. reflexivity. Qed.

Lemma gallery_of_length :
  forall t, List.length (fst (gallery_of t)) = List.length (snd (gallery_of t)).
Proof. intros t. rewrite gallery_of_listed. simpl. rewrite !length_map. reflexivity. Qed.

(** A pair kept by the loop comes from a fetched row whose embedding is a
    list, and every such row is kept. *)
Lemma listed_In :
  forall rows n v, In (n, v) (listed rows) <-> In (n, DbList v) rows.
Proof.
  intros rows n v. unfold listed. rewrite in_flat_map. split.
  - intros ([n' d] & Hin & Hk). simpl in Hk.
    destruct d; simpl in Hk; try contradiction.
    destruct Hk as [Hk | []]. injection Hk as -> ->. assumption.
  - intros Hin. exists (n, DbList v). split; [assumption | simpl; auto].
Qed.

Lemma select_not_null_In :
  forall t n d,
    In (n, d) (database.select_not_null t) <->
    exists r, In r t /\ row_nombre r = n /\ row_embedding r = d /\ d <> DbNull.
Proof.
  intros t n d. unfold database.select_not_null. rewrite in_map_iff. split.
  - intros (r & Heq & Hin). apply filter_In in Hin. destruct Hin as [Hin Hnn].
    injection Heq as <- <-. exists r. repeat split; try assumption.
    intro E. rewrite E in Hnn. discriminate.
  - intros (r & Hin & <- & <- & Hnn). exists r. split; [reflexivity|].
    apply filter_In. split; [assumption|].
    destruct (row_embedding r); simpl; congruence.
Qed.

Lemma listed_select :
  forall t,
    listed (database.select_not_null t) =
      flat_map (fun r => match row_embedding r with
                         | DbList v => [(row_nombre r, v)]
                         | _ => []
                         end) t.
Proof.
  induction t as [|r t IH]; [reflexivity|].
  unfold database.select_not_null in *. simpl.
  destruct (row_embedding r) eqn:E; simpl; rewrite ?E; simpl; rewrite IH; reflexivity.
Qed.

Lemma gallery_of_rows :
  forall t,
    snd (gallery_of t) = map row_nombre (filter list_valued t) /\
    map DbList (fst (gallery_of t)) = map row_embedding (filter list_valued t).
Proof.
  intros t. rewrite gallery_of_listed, listed_select. simpl.
  induction t as [|r t [IHn IHe]]; [split; reflexivity|].
  simpl. assert (Hlv : list_valued r = match row_embedding r with
                                       | DbList _ => true | _ => false end)
    by reflexivity.
  rewrite Hlv. clear Hlv.
  destruct (row_embedding r) eqn:E; simpl; rewrite ?E; split;
    try assumption; f_equal; assumption.
Qed.

Lemma combine_fst_snd :
  forall (A B : Type) (l : list (A * B)), combine (map fst l) (map snd l) = l.
Proof.
  induction l as [|[a b] l IH]; simpl; [reflexivity | rewrite IH; reflexivity].
Qed.

(** The name and the vector that a loaded gallery holds at one index come
    from one row of the table, whose embedding is that list. *)
Lemma gallery_of_nth :
  forall t i n v,
    nth_error (snd (gallery_of t)) i = Some n ->
    nth_error (fst (gallery_of t)) i = Some v ->
    exists r, In r t /\ row_nombre r = n /\ row_embedding r = DbList v.
Proof.
  intros t i n v. rewrite gallery_of_listed. cbn [fst snd].
  rewrite !nth_error_map.
  destruct (nth_error (listed (database.select_not_null t)) i) as [[n' v']|] eqn:Hi;
    cbn [option_map fst snd]; [|discriminate].
  intros Hn Hv. injection Hn as <-. injection Hv as <-.
  apply nth_error_In in Hi. apply listed_In in Hi. apply select_not_null_In in Hi.
  destruct Hi as (r & Hin & Hn & He & _). exists r. auto.
Qed.

Lemma listed_perm :
  forall rows rows', Permutation rows rows' -> Permutation (listed rows) (listed rows').
Proof.
  intros rows rows' HP. unfold listed.
  induction HP; simpl.
  - constructor.
  - apply Permutation_app_head. assumption.
  - rewrite !app_assoc. apply Permutation_app_tail. apply Permutation_app_comm.
  - eapply Permutation_trans; eassumption.
Qed.

End Loader.

(** ** Running the store operations *)

Section StoreRuns.

Lemma get_db_connection_run :
  forall w,
    database.get_db_connection w =
      (if connect_ok w then Ok tt else Raise (Psycopg2Error CONNECT_FAILED),
       connected w).
Proof.
  intros w. unfold database.get_db_connection, connect_ok, connected.
  destruct (connects w) as [|[|] rest]; reflexivity.
Qed.

Lemma load_run :
  forall w,
    database.load_known_faces_from_db w =
      (if connect_ok w then Ok (gallery_of (table w))
       else Raise (Psycopg2Error CONNECT_FAILED),
       connected (add_call CallLoad w)).
Proof.
  intros w. unfold database.load_known_faces_from_db, bind, modify.
  rewrite get_db_connection_run.
  change (connect_ok (add_call CallLoad w)) with (connect_ok w).
  destruct (connect_ok w); reflexivity.
Qed.

Lemma save_run :
  forall nombre embedding w,
    database.save_face_to_db nombre embedding w =
      let w1 := connected (add_call (CallSave nombre) w) in
      if connect_ok w then
        match find (database.has_nombre nombre) (table w) with
        | Some row =>
            (Ok (row_id row),
             set_table (map (database.update_embedding (row_id row) embedding) (table w))
                       (next_id w) w1)
        | None =>
            (Ok (next_id w),
             set_table (table w ++ [{| row_id := next_id w; row_nombre := nombre;
                                       row_embedding := DbList embedding |}])
                       (next_id w + 1)%Z w1)
        end
      else (Raise (Psycopg2Error CONNECT_FAILED), w1).
Proof.
  intros nombre embedding w. unfold database.save_face_to_db, bind, modify.
  rewrite get_db_connection_run.
  change (connect_ok (add_call (CallSave nombre) w)) with (connect_ok w).
  destruct (connect_ok w); [|reflexivity].
  cbn. destruct (find (database.has_nombre nombre) (table w)); reflexivity.
Qed.

Lemma delete_run :
  forall person_id w,
    database.delete_face_from_db person_id w =
      let w1 := connected (add_call (CallDelete person_id) w) in
      let kept := filter (fun r => negb (database.has_id person_id r)) (table w) in
      if connect_ok w then
        (Ok (0 <? List.length (table w) - List.length kept)%nat,
         set_table kept (next_id w) w1)
      else (Raise (Psycopg2Error CONNECT_FAILED), w1).
Proof.
  intros person_id w. unfold database.delete_face_from_db, bind, modify.
  rewrite get_db_connection_run.
  change (connect_ok (add_call (CallDelete person_id) w)) with (connect_ok w).
  destruct (connect_ok w); reflexivity.
Qed.

Context {lib : FaceLib}.

Lemma reload_cache_run :
  forall w,
    app_main.reload_cache w =
      let w1 := connected (add_call CallLoad w) in
      if connect_ok w then
        (Ok tt, set_cache (fst (gallery_of (table w))) (snd (gallery_of (table w))) w1)
      else (Raise (Psycopg2Error CONNECT_FAILED), w1).
Proof.
  intros w. unfold app_main.reload_cache, bind. rewrite load_run.
  destruct (connect_ok w); reflexivity.
Qed.

Lemma find_id_by_name_run :
  forall nombre w,
    app_main.find_id_by_name nombre w =
      let w1 := connected (add_call (CallFindId nombre) w) in
      if connect_ok w then
        match find (database.has_nombre nombre) (table w) with
        | Some row => (Ok (row_id row), w1)
        | None =>
            (Raise (HTTPException 404
                      ("Persona con nombre '" ++ nombre ++ "' no encontrada.")), w1)
        end
      else (Raise (Psycopg2Error CONNECT_FAILED), w1).
Proof.
  intros nombre w. unfold app_main.find_id_by_name, bind, modify.
  rewrite get_db_connection_run.
  change (connect_ok (add_call (CallFindId nombre) w)) with (connect_ok w).
  destruct (connect_ok w); [|reflexivity].
  cbn. destruct (find (database.has_nombre nombre) (table w)); reflexivity.
Qed.

End StoreRuns.

(** ** Frame reasoning: what a computation leaves related *)

Section Frames.

Variable Rel : World -> World -> Prop.
Hypothesis Rel_refl : forall w, Rel w w.
Hypothesis Rel_trans : forall a b c, Rel a b -> Rel b c -> Rel a c.

Local Abbreviation respects := (respects Rel).

Lemma respects_ret : forall (A : Type) (a : A), respects (ret a).
Proof. intros A a w. apply Rel_refl. Qed.

Lemma respects_raise : forall (A : Type) (e : Exc), respects (@raise A e).
Proof. intros A e w. apply Rel_refl. Qed.

Lemma respects_lift : forall (A : Type) (r : Res A), respects (lift r).
Proof. intros A r w. apply Rel_refl. Qed.

Lemma respects_get : respects get.
Proof. intros w. apply Rel_refl. Qed.

Lemma respects_modify :
  forall f, (forall w, Rel w (f w)) -> respects (modify f).
Proof. intros f H w. apply H. Qed.

Lemma respects_bind :
  forall (A B : Type) (m : M A) (k : A -> M B),
    respects m -> (forall a, respects (k a)) -> respects (bind m k).
Proof.
  intros A B m k Hm Hk w. unfold bind.
  specialize (Hm w). destruct (m w) as [[a | e] w']; simpl in *.
  - eapply Rel_trans; [exact Hm | apply Hk].
  - exact Hm.
Qed.

Lemma respects_try :
  forall (A : Type) (m : M A) (h : Exc -> M A),
    respects m -> (forall e, respects (h e)) -> respects (try_except m h).
Proof.
  intros A m h Hm Hh w. unfold try_except.
  specialize (Hm w). destruct (m w) as [[a | e] w']; simpl in *.
  - exact Hm.
  - eapply Rel_trans; [exact Hm | apply Hh].
Qed.

Lemma respects_reraise :
  forall (A : Type) (h : Exc -> M A),
    (forall e, respects (h e)) -> forall e, respects (reraise_http h e).
Proof.
  intros A h Hh [m | c d | | | m]; simpl; try apply Hh. apply respects_raise.
Qed.

End Frames.

Create HintDb frame.

Ltac frame refl trans :=
  repeat first
    [ solve [auto with frame]
    | apply (respects_ret _ refl)
    | apply (respects_raise _ refl)
    | apply (respects_lift _ refl)
    | apply (respects_get _ refl)
    | apply (respects_bind _ trans); [| intros ?]
    | apply (respects_try _ trans); [| intros ?]
    | apply (respects_reraise _ refl); intros ?
    | match goal with
      | |- respects _ (match ?x with _ => _ end) => destruct x
      end ].

(** ** Refresh (src/app/main.py, [refresh_db_faces_endpoint]) *)

Section Refresh.
Context {lib : FaceLib}.

Lemma refresh_run :
  forall w,
    app_main.refresh_db_faces_endpoint w =
      let w1 := connected (add_call CallLoad w) in
      if connect_ok w then
        (Ok ("Rostros recargados desde la DB. Total: "
               ++ str_of_nat (List.length (snd (gallery_of (table w)))))%string,
         set_cache (fst (gallery_of (table w))) (snd (gallery_of (table w))) w1)
      else
        (Raise (HTTPException 500
                  ("Error interno al recargar rostros: " ++ CONNECT_FAILED)), w1).
Proof.
  intros w. unfold app_main.refresh_db_faces_endpoint, try_except, bind.
  rewrite reload_cache_run. cbv zeta.
  destruct (connect_ok w); reflexivity.
Qed.

(** A refresh that cannot reach the store answers 500 and leaves the
    published gallery, and the table, as they were. *)
Lemma refresh_failure_keeps_cache :
  forall w,
    connect_ok w = false ->
    fst (app_main.refresh_db_faces_endpoint w) =
      Raise (HTTPException 500
               ("Error interno al recargar rostros: " ++ CONNECT_FAILED)) /\
    cache (snd (app_main.refresh_db_faces_endpoint w)) = cache w /\
    table (snd (app_main.refresh_db_faces_endpoint w)) = table w.
Proof.
  intros w Hdown. rewrite refresh_run. cbv zeta. rewrite Hdown.
  repeat split; reflexivity.
Qed.

(** C7.  Two refreshes in a row, both reaching the store and with nothing
    written in between, give the same answer, with the same total, and
    publish the same gallery; the table is not touched.  The total and the
    names do not depend on the order in which the rows are fetched: two
    orders of the same rows give galleries of one size whose names are the
    same up to order. *)
Theorem refresh_idempotent :
  forall w,
    connect_ok w = true ->
    connect_ok (connected w) = true ->
    (exists total w1 w2,
        app_main.refresh_db_faces_endpoint w =
          (Ok ("Rostros recargados desde la DB. Total: " ++ str_of_nat total)%string, w1) /\
        app_main.refresh_db_faces_endpoint w1 =
          (Ok ("Rostros recargados desde la DB. Total: " ++ str_of_nat total)%string, w2) /\
        total = List.length (known_face_names w1) /\
        total = List.length (known_face_encodings w1) /\
        cache w2 = cache w1 /\
        table w1 = table w /\
        table w2 = table w) /\
    (forall rows rows',
        Permutation rows rows' ->
        List.length (snd (database.collect_rows rows [] [])) =
          List.length (snd (database.collect_rows rows' [] [])) /\
        Permutation (snd (database.collect_rows rows [] []))
                    (snd (database.collect_rows rows' [] []))).
Proof.
  intros w Hup1 Hup2. split.
  - pose (g := gallery_of (table w)).
    pose (w1 := set_cache (fst g) (snd g) (connected (add_call CallLoad w))).
    exists (List.length (snd g)), w1.
    exists (set_cache (fst g) (snd g) (connected (add_call CallLoad w1))).
    assert (H1 : app_main.refresh_db_faces_endpoint w =
                   (Ok ("Rostros recargados desde la DB. Total: "
                          ++ str_of_nat (List.length (snd g)))%string, w1)).
    { rewrite refresh_run. cbv zeta. rewrite Hup1. reflexivity. }
    split; [exact H1|]. split.
    + rewrite refresh_run. cbv zeta.
      change (connect_ok w1) with (connect_ok (connected w)). rewrite Hup2.
      reflexivity.
    + repeat split; try reflexivity.
      subst w1. simpl. symmetry. apply gallery_of_length.
  - intros rows rows' HP. rewrite !collect_rows_listed. simpl.
    pose proof (listed_perm rows rows' HP) as HL.
    split.
    + rewrite !length_map. apply Permutation_length. assumption.
    + apply Permutation_map. assumption.
Qed.

End Refresh.

(** ** The loader of src/api.py *)

Section LegacyLoader.

Lemma api_load_failure :
  forall w,
    connect_ok w = false ->
    api.load_known_faces_from_db w =
      (Raise (HTTPException 500
                ("No se pudo conectar a la base de datos: " ++ CONNECT_FAILED)),
       connected (set_cache [] [] w)).
Proof.
  intros w Hdown.
  assert (Hc : api.get_db_connection (set_cache [] [] w) =
                 (Raise (HTTPException 500
                           ("No se pudo conectar a la base de datos: " ++ CONNECT_FAILED)),
                  connected (set_cache [] [] w))).
  { unfold api.get_db_connection, connected. unfold connect_ok in Hdown.
    change (connects (set_cache [] [] w)) with (connects w).
    destruct (connects w) as [|[|] rest]; try discriminate. reflexivity. }
  unfold api.load_known_faces_from_db, bind, modify, try_except.
  rewrite Hc. reflexivity.
Qed.

(** Whatever was published, a load of src/api.py that cannot reach the store
    leaves both lists empty. *)
Lemma api_load_failure_cache :
  forall w,
    connect_ok w = false ->
    cache (snd (api.load_known_faces_from_db w)) = ([], []).
Proof. intros w Hdown. rewrite api_load_failure by assumption. reflexivity. Qed.

End LegacyLoader.

(** ** Deletion (src/app/main.py, [delete_face_by_name]) *)

Section Deletion.
Context {lib : FaceLib}.

Lemma filter_length_lt :
  forall (A : Type) (f : A -> bool) (l : list A) (x : A),
    In x l -> f x = false -> (List.length (filter f l) < List.length l)%nat.
Proof.
  intros A f l x. induction l as [|a l IH]; intros Hin Hf; [contradiction|].
  simpl. pose proof (filter_length_le f l) as Hle.
  destruct Hin as [-> | Hin].
  - rewrite Hf. lia.
  - specialize (IH Hin Hf). destruct (f a); simpl; lia.
Qed.

Lemma filter_all_true :
  forall (A : Type) (f : A -> bool) (l : list A),
    forallb f l = true -> filter f l = l.
Proof.
  intros A f l. induction l as [|a l IH]; simpl; intros H; [reflexivity|].
  apply andb_true_iff in H. destruct H as [Ha Hl].
  rewrite Ha, IH by assumption. reflexivity.
Qed.

(** The answer and the world left by [delete_face_by_name], case by case. *)
Lemma delete_face_by_name_run :
  forall nombre w,
    app_main.delete_face_by_name nombre w =
      let w1 := connected (add_call (CallFindId nombre) w) in
      if connect_ok w then
        match find (database.has_nombre nombre) (table w) with
        | None =>
            (Raise (HTTPException 404
                      ("Persona con nombre '" ++ nombre ++ "' no encontrada.")), w1)
        | Some row =>
            let w2 := connected (add_call (CallDelete (row_id row)) w1) in
            let kept := filter (fun r => negb (database.has_id (row_id row) r))
                          (table w) in
            if connect_ok w1 then
              let w3 := set_table kept (next_id w) w2 in
              if (0 <? List.length (table w) - List.length kept)%nat then
                (Ok ("Persona '" ++ nombre ++ "' eliminada exitosamente de la DB.")%string,
                 if connect_ok w3
                 then set_cache (fst (gallery_of kept)) (snd (gallery_of kept))
                        (connected (add_call CallLoad w3))
                 else connected (add_call CallLoad w3))
              else
                (Raise (HTTPException 500 "Error interno al eliminar a la persona."), w3)
            else
              (Raise (HTTPException 500
                        ("Error interno al eliminar: " ++ CONNECT_FAILED)), w2)
        end
      else
        (Raise (HTTPException 500
                  ("Error interno al eliminar: " ++ CONNECT_FAILED)), w1).
Proof.
  intros nombre w. unfold app_main.delete_face_by_name, try_except, bind.
  rewrite find_id_by_name_run. cbv zeta.
  destruct (connect_ok w); [|reflexivity].
  destruct (find (database.has_nombre nombre) (table w)) as [row|]; [|reflexivity].
  rewrite delete_run. cbv zeta.
  change (table (connected (add_call (CallFindId nombre) w))) with (table w).
  change (next_id (connected (add_call (CallFindId nombre) w))) with (next_id w).
  destruct (connect_ok (connected (add_call (CallFindId nombre) w))); [|reflexivity].
  destruct (0 <? List.length (table w) -
                 List.length (filter (fun r => negb (database.has_id (row_id row) r))
                                (table w)))%nat; [|reflexivity].
  rewrite reload_cache_run. cbv zeta.
  match goal with |- context [connect_ok ?x] => destruct (connect_ok x) end;
    reflexivity.
Qed.

(** C6.  Deleting by a name that no row carries answers 404 and changes
    neither the published gallery nor the table; deleting by an id that no
    row carries returns [false], with the same frame.  The name is resolved
    to an id first, and the gallery is replaced only after a store delete
    that removed a row: in every case either the cache is as it was, or the
    handler answered success, the rows of the resolved id are gone from the
    table, and the cache is the gallery loaded from the table that remains. *)
Theorem delete_unknown_not_found :
  (forall nombre w,
      connect_ok w = true ->
      find (database.has_nombre nombre) (table w) = None ->
      fst (app_main.delete_face_by_name nombre w) =
        Raise (HTTPException 404
                 ("Persona con nombre '" ++ nombre ++ "' no encontrada.")) /\
      cache (snd (app_main.delete_face_by_name nombre w)) = cache w /\
      table (snd (app_main.delete_face_by_name nombre w)) = table w /\
      store_calls (snd (app_main.delete_face_by_name nombre w)) =
        CallFindId nombre :: store_calls w) /\
  (forall person_id w,
      connect_ok w = true ->
      forallb (fun r => negb (database.has_id person_id r)) (table w) = true ->
      fst (database.delete_face_from_db person_id w) = Ok false /\
      cache (snd (database.delete_face_from_db person_id w)) = cache w /\
      table (snd (database.delete_face_from_db person_id w)) = table w) /\
  (forall nombre w,
      cache (snd (app_main.delete_face_by_name nombre w)) = cache w \/
      exists row,
        find (database.has_nombre nombre) (table w) = Some row /\
        fst (app_main.delete_face_by_name nombre w) =
          Ok ("Persona '" ++ nombre ++ "' eliminada exitosamente de la DB.")%string /\
        table (snd (app_main.delete_face_by_name nombre w)) =
          filter (fun r => negb (database.has_id (row_id row) r)) (table w) /\
        (List.length (table (snd (app_main.delete_face_by_name nombre w)))
           < List.length (table w))%nat /\
        cache (snd (app_main.delete_face_by_name nombre w)) =
          gallery_of (table (snd (app_main.delete_face_by_name nombre w)))).
Proof.
  split; [|split].
  - intros nombre w Hup Hnone.
    rewrite delete_face_by_name_run. cbv zeta. rewrite Hup, Hnone.
    repeat split; reflexivity.
  - intros person_id w Hup Hnone.
    rewrite delete_run. cbv zeta. rewrite Hup.
    rewrite (filter_all_true _ _ _ Hnone). rewrite Nat.sub_diag.
    repeat split; reflexivity.
  - intros nombre w. rewrite delete_face_by_name_run. cbv zeta.
    destruct (connect_ok w); [|left; reflexivity].
    destruct (find (database.has_nombre nombre) (table w)) as [row|] eqn:Hfind;
      [|left; reflexivity].
    destruct (connect_ok (connected (add_call (CallFindId nombre) w)));
      [|left; reflexivity].
    destruct (0 <? _)%nat eqn:Hcount; [|left; reflexivity].
    match goal with |- context [connect_ok ?x] => destruct (connect_ok x) end;
      [|left; reflexivity].
    right. exists row. split; [reflexivity|]. split; [reflexivity|].
    split; [reflexivity|]. split.
    + simpl. apply Nat.ltb_lt in Hcount. lia.
    + unfold cache. simpl.
      destruct (gallery_of (filter (fun r => negb (database.has_id (row_id row) r))
                              (table w))); reflexivity.
Qed.

End Deletion.

(** ** Worked requests *)

Section Worked.

Import face_utils.
Local Open Scope R_scope.

Lemma euclid_1d_val :
  forall x y d, 0 <= d -> x - y = d \/ y - x = d -> euclid [x] [y] = d.
Proof.
  intros x y d Hd H. rewrite euclid_1d.
  destruct H as [H | H].
  - rewrite H. apply Rabs_pos_eq. assumption.
  - rewrite Rabs_minus_sym, H. apply Rabs_pos_eq. assumption.
Qed.

(** A query at distance 0.3 from alice and 0.7 from bob is alice. *)
Example recognize_alice :
  recognize_face [0.3] gallery_encs gallery_names FACE_RECOGNITION_TOLERANCE =
    Ok {| name := "alice"; is_known := true; distance := Some 0.3 |}.
Proof.
  unfold recognize_face, gallery_encs, gallery_names, FACE_RECOGNITION_TOLERANCE.
  cbn [face_distance map argmin argmin_from].
  rewrite (euclid_1d_val 0 0.3 0.3), (euclid_1d_val 1 0.3 0.7) by (first [lra | left; lra | right; lra]).
  destruct (Rlt_dec 0.7 0.3); [lra|].
  cbn [index nth_error].
  destruct (Rle_dec 0.3 0.6); [reflexivity | lra].
Qed.

(** A query at distance 0.7 from alice and 1.7 from bob is unknown, and the
    distance reported is the nearest one. *)
Example recognize_stranger :
  recognize_face [-0.7] gallery_encs gallery_names FACE_RECOGNITION_TOLERANCE =
    Ok {| name := "Desconocido"; is_known := false; distance := Some 0.7 |}.
Proof.
  unfold recognize_face, gallery_encs, gallery_names, FACE_RECOGNITION_TOLERANCE.
  cbn [face_distance map argmin argmin_from].
  rewrite (euclid_1d_val 0 (-0.7) 0.7), (euclid_1d_val 1 (-0.7) 1.7) by (first [lra | left; lra | right; lra]).
  destruct (Rlt_dec 1.7 0.7); [lra|].
  cbn [index nth_error].
  destruct (Rle_dec 0.7 0.6); [lra | reflexivity].
Qed.

(** Of two entries at the same distance the first is returned. *)
Example recognize_tie :
  recognize_face [0] [[1]; [-1]] ["first"; "second"] 2 =
    Ok {| name := "first"; is_known := true; distance := Some 1 |}.
Proof.
  unfold recognize_face.
  cbn [face_distance map argmin argmin_from].
  rewrite (euclid_1d_val 1 0 1), (euclid_1d_val (-1) 0 1) by (first [lra | left; lra | right; lra]).
  destruct (Rlt_dec 1 1); [lra|].
  cbn [index nth_error].
  destruct (Rle_dec 1 2); [reflexivity | lra].
Qed.

End Worked.

(** ** What Python defines of src/app/main.py *)

Section Defined.

Lemma str_in_In :
  forall x l, In x l -> str_in x l = true.
Proof.
  intros x l Hin. unfold str_in. apply existsb_exists.
  exists x. split; [exact Hin | apply String.eqb_refl].
Qed.

(** The rule at work: a body that reads or assigns a name and declares it
    [global] further down is refused, whatever else it holds. *)
Lemma global_after_use_refused :
  forall before seen line names after x,
    In x names ->
    (In x seen \/ exists l, In (Reads l x) before \/ In (Assigns l x) before) ->
    global_ok seen (before ++ Global line names :: after) = false.
Proof.
  induction before as [|e before IH]; intros seen line names after x Hx Huse.
  - destruct Huse as [Hseen | (l & [[] | []])].
    cbn [app global_ok].
    assert (Hex : existsb (fun y => str_in y seen) names = true).
    { apply existsb_exists. exists x. split; [exact Hx | apply str_in_In; exact Hseen]. }
    rewrite Hex. reflexivity.
  - assert (Hrest : forall y,
              e = Reads 0 y \/ e = Assigns 0 y \/ True ->
              In x seen \/ (exists l, e = Reads l x \/ e = Assigns l x) \/
              exists l, In (Reads l x) before \/ In (Assigns l x) before).
    { intros y _. destruct Huse as [Hseen | (l & [[He | Hin] | [He | Hin]])].
      - left. exact Hseen.
      - right. left. exists l. left. exact He.
      - right. right. exists l. left. exact Hin.
      - right. left. exists l. right. exact He.
      - right. right. exists l. right. exact Hin. }
    specialize (Hrest x (or_intror (or_intror I))).
    destruct e as [l' y | l' y | l' names']; cbn [app global_ok].
    + apply (IH (y :: seen) line names after x Hx).
      destruct Hrest as [Hseen | [(l & [He | He]) | Hin]].
      * left. right. exact Hseen.
      * injection He as _ ->. left. left. reflexivity.
      * discriminate.
      * right. exact Hin.
    + apply (IH (y :: seen) line names after x Hx).
      destruct Hrest as [Hseen | [(l & [He | He]) | Hin]].
      * left. right. exact Hseen.
      * discriminate.
      * injection He as _ ->. left. left. reflexivity.
      * right. exact Hin.
    + rewrite (IH seen line names after x Hx).
      * apply Bool.andb_false_r.
      * destruct Hrest as [Hseen | [(l & [He | He]) | Hin]];
          [left; exact Hseen | discriminate | discriminate | right; exact Hin].
Qed.

(** A body whose [global] statement comes first is accepted. *)
Lemma global_first_accepted :
  forall line names rest,
    (forall l ns, In (Global l ns) rest -> False) ->
    global_ok [] (Global line names :: rest) = true.
Proof.
  intros line names rest Hno. cbn [global_ok].
  assert (Hnone : existsb (fun x => str_in x []) names = false).
  { induction names as [|x names IH]; [reflexivity | exact IH]. }
  rewrite Hnone. cbn [negb andb].
  generalize (@nil string). induction rest as [|e rest IH]; intros seen; [reflexivity|].
  destruct e as [l y | l y | l ns]; cbn [global_ok].
  - apply IH. intros l' ns Hin. apply (Hno l' ns). right. exact Hin.
  - apply IH. intros l' ns Hin. apply (Hno l' ns). right. exact Hin.
  - exfalso. apply (Hno l ns). left. reflexivity.
Qed.

Context {lib : FaceLib}.

Lemma startup_event_refused : app_main.startup_event = None.
Proof. reflexivity. Qed.

Lemma register_face_refused : app_main.register_face = None.
Proof. reflexivity. Qed.

(** The handlers that assign the cache after their [global] statement are
    accepted. *)
Lemma assigning_handlers_accepted :
  global_ok [] app_main.delete_face_by_name_names = true /\
  global_ok [] app_main.refresh_db_faces_endpoint_names = true.
Proof. split; reflexivity. Qed.

Import face_utils.
Local Open Scope R_scope.

Lemma is_face_duplicate_single :
  forall q e n tol,
    is_face_duplicate q [e] [n] tol =
      Ok (if Rle_dec (euclid e q) tol
          then (true, Some n, Some (euclid e q))
          else (false, None, None)).
Proof.
  intros q e n tol. unfold is_face_duplicate.
  cbn [face_distance map argmin argmin_from index nth_error].
  destruct (Rle_dec (euclid e q) tol); reflexivity.
Qed.

End Defined.

(** ** The cache invariant *)

Section CacheInvariant.
Context {lib : FaceLib}.

Lemma recognize_face_unchanged :
  forall file, respects eq (app_main.recognize_face file).
Proof.
  intros file. unfold app_main.recognize_face, app_main.decode_upload.
  frame (@eq_refl World) (@eq_trans World).
Qed.

Lemma gallery_pair :
  forall t, (fst (gallery_of t), snd (gallery_of t)) = gallery_of t.
Proof. intros t. destruct (gallery_of t); reflexivity. Qed.

(** Whatever a handler answers, the cache it leaves is the one it found or
    the gallery loaded from the table it leaves. *)
Lemma handle_publishes :
  forall r w,
    cache (handle r w) = cache w \/
    cache (handle r w) = gallery_of (table (handle r w)).
Proof.
  intros [photos | nombre file | file | nombre | |] w; cbn [handle].
  - left. reflexivity.
  - left. reflexivity.
  - left. rewrite <- (recognize_face_unchanged file w). reflexivity.
  - rewrite delete_face_by_name_run. cbv zeta.
    destruct (connect_ok w); [|left; reflexivity].
    destruct (find (database.has_nombre nombre) (table w)) as [row|];
      [|left; reflexivity].
    destruct (connect_ok (connected (add_call (CallFindId nombre) w)));
      [|left; reflexivity].
    destruct (0 <? _)%nat; [|left; reflexivity].
    match goal with |- context [connect_ok ?x] => destruct (connect_ok x) end;
      [|left; reflexivity].
    right. unfold cache. cbn. apply gallery_pair.
  - left. reflexivity.
  - rewrite refresh_run. cbv zeta.
    destruct (connect_ok w); [|left; reflexivity].
    right. unfold cache. cbn. apply gallery_pair.
Qed.

(** Along a run, the cache is empty as at boot, or it is the gallery loaded
    from the table of a world of the run. *)
Lemma run_loaded :
  forall ws,
    run ws ->
    forall w past,
      ws = w :: past ->
      cache w = ([], []) \/
      exists w0, In w0 (w :: past) /\ cache w = gallery_of (table w0).
Proof.
  intros ws Hrun.
  induction Hrun as [t n script | w past r Hrun IH | w past t n script Hrun IH];
    intros w' past' Heq; injection Heq as <- <-.
  - left. reflexivity.
  - specialize (IH w past eq_refl).
    destruct (handle_publishes r w) as [Hsame | Hload].
    + rewrite Hsame. destruct IH as [Hempty | (w0 & Hin & Hc)].
      * left. exact Hempty.
      * right. exists w0. split; [right; exact Hin | exact Hc].
    + right. exists (handle r w). split; [left; reflexivity | exact Hload].
  - specialize (IH w past eq_refl).
    change (cache (set_table t n (set_connects script w))) with (cache w).
    destruct IH as [Hempty | (w0 & Hin & Hc)].
    + left. exact Hempty.
    + right. exists w0. split; [right; exact Hin | exact Hc].
Qed.

Lemma reachable_lengths :
  forall w,
    reachable w ->
    List.length (known_face_encodings w) = List.length (known_face_names w).
Proof.
  intros w Hr. induction Hr as [t n script | w r Hr IH | w t n script Hr IH].
  - reflexivity.
  - destruct (handle_publishes r w) as [Hsame | Hload]; unfold cache in *.
    + injection Hsame as -> ->. exact IH.
    + pose proof (gallery_of_length (table (handle r w))) as Hl.
      rewrite <- Hload in Hl. exact Hl.
  - exact IH.
Qed.

Lemma reachable_run :
  forall w, reachable w <-> exists past, run (w :: past).
Proof.
  intros w. split.
  - intros Hr. induction Hr as [t n script | w r Hr [past IH] | w t n script Hr [past IH]].
    + exists []. apply run_boot.
    + exists (w :: past). apply run_request. exact IH.
    + exists (w :: past). apply run_store. exact IH.
  - intros [past Hrun]. remember (w :: past) as ws eqn:Hws.
    revert w past Hws.
    induction Hrun as [t n script | w0 past0 r Hrun IH | w0 past0 t n script Hrun IH];
      intros w past Hws; injection Hws as <- <-.
    + apply reach_boot.
    + apply reach_request. apply (IH w0 past0 eq_refl).
    + apply reach_store. apply (IH w0 past0 eq_refl).
Qed.

(** C10.  The statement that assigns the cache from the loader, the only
    one in the module that writes it, leaves it as it was when the load
    fails and otherwise publishes the gallery loaded from the table, which it
    does not change.  Along every run of the service, from boot through any
    requests and any changes of the table or of the server's availability,
    the two cached lists have one length, and they are empty as at boot or
    they are,
    position by position and in full, the names and the embeddings of the
    rows with a list-valued embedding of the table that one world of the run
    held.  So the name and the vector cached at one index come from one row
    of a table the store held during the run, whose embedding is that list:
    a row whose embedding is null or is not a list is never behind a cached
    entry. *)
Theorem cache_invariant :
  (forall w,
      table (snd (app_main.reload_cache w)) = table w /\
      (cache (snd (app_main.reload_cache w)) = cache w \/
       fst (app_main.reload_cache w) = Ok tt /\
       cache (snd (app_main.reload_cache w)) = gallery_of (table w))) /\
  (forall w past,
      run (w :: past) ->
      List.length (known_face_encodings w) = List.length (known_face_names w) /\
      (cache w = ([], []) \/
       exists w0,
         In w0 (w :: past) /\
         known_face_names w = map row_nombre (filter list_valued (table w0)) /\
         map DbList (known_face_encodings w) =
           map row_embedding (filter list_valued (table w0))) /\
      (forall i n v,
          nth_error (known_face_names w) i = Some n ->
          nth_error (known_face_encodings w) i = Some v ->
          exists w0 r,
            In w0 (w :: past) /\ In r (table w0) /\
            row_nombre r = n /\ row_embedding r = DbList v /\
            list_valued r = true)).
Proof.
  split.
  { intros w. rewrite reload_cache_run. cbv zeta.
    destruct (connect_ok w); (split; [reflexivity|]); [right | left; reflexivity].
    split; [reflexivity|]. unfold cache. cbn. apply gallery_pair. }
  intros w past Hrun.
  destruct (run_loaded _ Hrun w past eq_refl) as [Hempty | (w0 & Hin & Hc)];
    unfold cache in *.
  - injection Hempty as He Hn. rewrite He, Hn.
    split; [reflexivity|]. split; [left; reflexivity|].
    intros [|i] n v Hi; discriminate.
  - rewrite <- gallery_pair in Hc. injection Hc as He Hn. split; [|split].
    + rewrite He, Hn. apply gallery_of_length.
    + right. exists w0. split; [exact Hin|].
      destruct (gallery_of_rows (table w0)) as [Hnames Hencs].
      rewrite He, Hn. split; assumption.
    + intros i n v Hi Hv. rewrite Hn in Hi. rewrite He in Hv.
      destruct (gallery_of_nth _ _ _ _ Hi Hv) as (r & Hr & Hrn & Hre).
      exists w0, r. repeat split; try assumption.
      unfold list_valued. rewrite Hre. reflexivity.
Qed.

End CacheInvariant.

(** ** Enrollment and startup (src/app/main.py, [register_face] and
    [startup_event]) *)

Section Refused.

Import face_utils.
Local Open Scope R_scope.

(** C2, at a failing input.  With alice published, a candidate at distance
    0.5 from her vector is a duplicate for the guard of face_utils, which
    reports her name and that distance.  But [register_face] reads the two
    cache names at l.218-219 and declares them [global] only at l.237, which
    Python refuses: the function is never defined, so no enrollment request,
    duplicate or not, is ever answered (with a duplicate error or with
    anything else), and the request leaves table, cache and call log as it
    found them. *)
Theorem duplicate_enrollment_never_answered :
  forall (lib : FaceLib) nombre file w,
    is_face_duplicate [5 / 10] (known_face_encodings world_alice)
      (known_face_names world_alice) FACE_RECOGNITION_TOLERANCE =
      Ok (true, Some "alice"%string, Some 0.5) /\
    global_ok [] app_main.register_face_names = false /\
    app_main.register_face = None /\
    handle (ReqRegister nombre file) w = w.
Proof.
  intros lib nombre file w. split; [|repeat split].
  change (known_face_encodings world_alice) with [[0]].
  change (known_face_names world_alice) with ["alice"%string].
  rewrite is_face_duplicate_single.
  rewrite (euclid_1d_val 0 (5 / 10) 0.5) by (first [lra | right; lra]).
  rewrite Rle_dec_true; [reflexivity | unfold FACE_RECOGNITION_TOLERANCE; lra].
Qed.

(** C9, at a failing input.  [startup_event] declares the two cache names
    [global] at l.75, assigns and reads them, and declares them [global] a
    second time at l.161, in the block that reloads the cache after the
    batch, which Python refuses: the function is never defined, so no batch
    of reference photos is ever processed, nothing is skipped, counted or
    registered, and no reload of the gallery follows. *)
Theorem startup_batch_never_runs :
  forall (lib : FaceLib) photos w,
    global_ok [] app_main.startup_event_names = false /\
    app_main.startup_event = None /\
    handle (ReqStartup photos) w = w /\
    count_loads (store_calls (handle (ReqStartup photos) w)) =
      count_loads (store_calls w).
Proof. intros lib photos w. repeat split. Qed.

End Refused.

(** ** The theorems at concrete requests *)

Section Instances.

Import face_utils.
Local Open Scope R_scope.

Lemma recognize_face_classifies_witness :
  List.length gallery_names = List.length gallery_encs /\
  (gallery_encs = [] ->
   recognize_face [0.3] gallery_encs gallery_names FACE_RECOGNITION_TOLERANCE =
     Ok {| name := NO_REFERENCE_NAME; is_known := false; distance := None |}) /\
  (gallery_encs <> [] ->
   exists i ei ni,
     nth_error gallery_encs i = Some ei /\
     nth_error gallery_names i = Some ni /\
     (forall e, In e gallery_encs -> euclid ei [0.3] <= euclid e [0.3]) /\
     (euclid ei [0.3] <= FACE_RECOGNITION_TOLERANCE ->
      recognize_face [0.3] gallery_encs gallery_names FACE_RECOGNITION_TOLERANCE =
        Ok {| name := ni; is_known := true; distance := Some (euclid ei [0.3]) |}) /\
     (FACE_RECOGNITION_TOLERANCE < euclid ei [0.3] ->
      recognize_face [0.3] gallery_encs gallery_names FACE_RECOGNITION_TOLERANCE =
        Ok {| name := UNKNOWN_NAME; is_known := false;
              distance := Some (euclid ei [0.3]) |})).
Proof.
  split; [reflexivity|].
  apply (recognize_face_classifies [0.3] gallery_encs gallery_names
           FACE_RECOGNITION_TOLERANCE).
  reflexivity.
Defined.

Lemma tie_break_earliest_witness :
  List.length ["first"; "second"]%string = List.length [[1]; [-1]] /\
  exists i ei ni,
    nth_error [[1]; [-1]] i = Some ei /\
    nth_error ["first"; "second"]%string i = Some ni /\
    (forall j ej, nth_error [[1]; [-1]] j = Some ej -> euclid ei [0] <= euclid ej [0]) /\
    (forall j ej, nth_error [[1]; [-1]] j = Some ej ->
                  euclid ej [0] = euclid ei [0] -> (i <= j)%nat) /\
    (forall j1 j2 e1 e2,
        (j1 < j2)%nat ->
        nth_error [[1]; [-1]] j1 = Some e1 ->
        nth_error [[1]; [-1]] j2 = Some e2 ->
        euclid e1 [0] = euclid e2 [0] -> i = j2 -> False) /\
    (euclid ei [0] <= 2 ->
     recognize_face [0] [[1]; [-1]] ["first"; "second"]%string 2 =
       Ok {| name := ni; is_known := true; distance := Some (euclid ei [0]) |}) /\
    (2 < euclid ei [0] ->
     recognize_face [0] [[1]; [-1]] ["first"; "second"]%string 2 =
       Ok {| name := UNKNOWN_NAME; is_known := false;
             distance := Some (euclid ei [0]) |}).
Proof.
  split; [reflexivity|].
  apply (tie_break_earliest [0] [1] [[-1]] ["first"; "second"]%string 2).
  reflexivity.
Defined.

Lemma recognize_enrolled_vector_witness :
  0 <= 0 /\
  List.length gallery_names = List.length gallery_encs /\
  nth_error gallery_encs 1 = Some [1] /\
  exists j ej nj,
    (j <= 1)%nat /\
    nth_error gallery_encs j = Some ej /\
    nth_error gallery_names j = Some nj /\
    euclid ej [1] = 0 /\
    (forall k ek, (k < j)%nat -> nth_error gallery_encs k = Some ek ->
                  0 < euclid ek [1]) /\
    (List.length ej = List.length [1] -> ej = [1]) /\
    ((forall k ek, (k < 1)%nat -> nth_error gallery_encs k = Some ek ->
                   0 < euclid ek [1]) ->
     j = 1%nat) /\
    recognize_face [1] gallery_encs gallery_names 0 =
      Ok {| name := nj; is_known := true; distance := Some 0 |}.
Proof.
  split; [apply Rle_refl|]. split; [reflexivity|]. split; [reflexivity|].
  apply (proj2 recognize_enrolled_vector [1] gallery_encs gallery_names 0 1%nat);
    [apply Rle_refl | reflexivity | reflexivity].
Defined.

Lemma same_as_alice : euclid [0] [0 / 10] = 0.
Proof. apply euclid_1d_val; [lra | right; lra]. Qed.

(** The claim C5 as stated fails on a gallery that holds one vector twice:
    dave's entry holds the query, the tolerance is not negative, and the
    name returned is carol's, whose entry comes first. *)
Lemma enrolled_vector_shadowed :
  nth_error [[0]; [2]; [2]] 2 = Some [2] /\
  nth_error ["alice"; "carol"; "dave"]%string 2 = Some "dave"%string /\
  0 <= 0 /\
  recognize_face [2] [[0]; [2]; [2]] ["alice"; "carol"; "dave"]%string 0 =
    Ok {| name := "carol"; is_known := true; distance := Some 0 |} /\
  String.eqb "carol" "dave" = false.
Proof.
  split; [reflexivity|]. split; [reflexivity|]. split; [apply Rle_refl|].
  split; [|reflexivity].
  unfold recognize_face.
  cbn [face_distance map argmin argmin_from].
  rewrite (euclid_1d_val 0 2 2), (euclid_1d_val 2 2 0)
    by (first [lra | left; lra | right; lra]).
  destruct (Rlt_dec 0 2); [|lra].
  destruct (Rlt_dec 0 0); [lra|].
  cbn [index nth_error].
  destruct (Rle_dec 0 0); [reflexivity | lra].
Qed.

End Instances.

Section MoreInstances.

Import face_utils.

Lemma delete_unknown_not_found_witness :
  connect_ok world_alice = true /\
  find (database.has_nombre "zoe") (table world_alice) = None /\
  (fst (app_main.delete_face_by_name (lib := byte_lib) "zoe" world_alice) =
     Raise (HTTPException 404 ("Persona con nombre '" ++ "zoe" ++ "' no encontrada.")) /\
   cache (snd (app_main.delete_face_by_name (lib := byte_lib) "zoe" world_alice)) =
     cache world_alice /\
   table (snd (app_main.delete_face_by_name (lib := byte_lib) "zoe" world_alice)) =
     table world_alice /\
   store_calls (snd (app_main.delete_face_by_name (lib := byte_lib) "zoe" world_alice)) =
     CallFindId "zoe" :: store_calls world_alice).
Proof.
  split; [reflexivity|]. split; [reflexivity|].
  apply (proj1 (@delete_unknown_not_found byte_lib) "zoe" world_alice);
    reflexivity.
Defined.

Lemma refresh_idempotent_witness :
  connect_ok world_alice = true /\
  connect_ok (connected world_alice) = true /\
  (exists total w1 w2,
      app_main.refresh_db_faces_endpoint (lib := byte_lib) world_alice =
        (Ok ("Rostros recargados desde la DB. Total: " ++ str_of_nat total)%string, w1) /\
      app_main.refresh_db_faces_endpoint (lib := byte_lib) w1 =
        (Ok ("Rostros recargados desde la DB. Total: " ++ str_of_nat total)%string, w2) /\
      total = List.length (known_face_names w1) /\
      total = List.length (known_face_encodings w1) /\
      cache w2 = cache w1 /\
      table w1 = table world_alice /\
      table w2 = table world_alice).
Proof.
  split; [reflexivity|]. split; [reflexivity|].
  apply (proj1 (@refresh_idempotent byte_lib world_alice eq_refl eq_refl)).
Defined.

Lemma cache_invariant_witness :
  @run byte_lib [handle (lib := byte_lib) ReqRefresh world_boot; world_boot] /\
  List.length (known_face_encodings (handle (lib := byte_lib) ReqRefresh world_boot)) =
    List.length (known_face_names (handle (lib := byte_lib) ReqRefresh world_boot)) /\
  known_face_names (handle (lib := byte_lib) ReqRefresh world_boot) = ["alice"] /\
  exists w0 r,
    In w0 [handle (lib := byte_lib) ReqRefresh world_boot; world_boot] /\
    In r (table w0) /\
    row_nombre r = "alice" /\ row_embedding r = DbList [0%R] /\
    list_valued r = true.
Proof.
  assert (Hrun : @run byte_lib
                   [handle (lib := byte_lib) ReqRefresh world_boot; world_boot]).
  { apply run_request. unfold world_boot. apply run_boot. }
  split; [exact Hrun|].
  destruct (proj2 (@cache_invariant byte_lib) _ _ Hrun) as (Hlen & _ & Hrows).
  split; [exact Hlen|]. split; [reflexivity|].
  exact (Hrows 0%nat "alice" [0%R] eq_refl eq_refl).
Defined.

(** C1, at a failing input.  With alice published and the server
    unreachable, the loader of src/api.py raises the connection error and
    leaves both lists empty, and so does its refresh handler; on the same
    world the refresh handler of src/app/main.py answers 500 and keeps the
    published gallery. *)
Theorem failed_load_drops_api_gallery :
  connect_ok world_down = false /\
  cache world_down = ([[0%R]], ["alice"]) /\
  fst (api.load_known_faces_from_db world_down) =
    Raise (HTTPException 500
             "No se pudo conectar a la base de datos: connection refused") /\
  cache (snd (api.load_known_faces_from_db world_down)) = ([], []) /\
  cache (snd (api.refresh_db_faces world_down)) = ([], []) /\
  cache (snd (app_main.refresh_db_faces_endpoint (lib := byte_lib) world_down)) =
    ([[0%R]], ["alice"]).
Proof.
  assert (Hdown : connect_ok world_down = false) by reflexivity.
  split; [exact Hdown|]. split; [reflexivity|].
  rewrite (api_load_failure world_down Hdown).
  split; [reflexivity|]. split; [reflexivity|]. split.
  - unfold api.refresh_db_faces, bind.
    rewrite (api_load_failure world_down Hdown). reflexivity.
  - destruct (@refresh_failure_keeps_cache byte_lib world_down Hdown)
      as (_ & Hcache & _).
    rewrite Hcache. reflexivity.
Qed.

End MoreInstances.

(** ** A row appended to the table *)

Section Appended.

Lemma gallery_of_snoc :
  forall t person_id nombre v,
    gallery_of (t ++ [{| row_id := person_id; row_nombre := nombre;
                         row_embedding := DbList v |}]) =
      (fst (gallery_of t) ++ [v], snd (gallery_of t) ++ [nombre]).
Proof.
  intros t person_id nombre v.
  rewrite !gallery_of_listed, !listed_select. simpl.
  rewrite flat_map_app, !map_app. reflexivity.
Qed.

End Appended.

(** ** Further properties of the handlers *)

Section Further.

Import face_utils.
Local Open Scope R_scope.

Lemma index_map :
  forall (A B : Type) (f : A -> B) (l : list A) (i : nat),
    index (map f l) i =
      match index l i with
      | Ok a => Ok (f a)
      | Raise e => Raise e
      end.
Proof.
  intros A B f l i. unfold index. rewrite nth_error_map.
  destruct (nth_error l i); reflexivity.
Qed.

(** The comparison written in src/api.py with [compare_faces] answers as
    [recognize_face] of src/app/face_utils.py does at the fixed tolerance, on
    every cache that is not empty and whatever the version of pydantic.  On
    an empty cache the two agree under pydantic 1; under pydantic 2 the
    handler of src/api.py raises where face_utils answers the "no reference"
    sentinel. *)
Theorem api_classify_agrees :
  forall none_is_valid q w,
    (known_face_encodings w <> [] \/ none_is_valid = true ->
     api.classify none_is_valid q w =
       recognize_face q (known_face_encodings w) (known_face_names w)
         FACE_RECOGNITION_TOLERANCE) /\
    (known_face_encodings w = [] ->
     none_is_valid = false ->
     api.classify none_is_valid q w = Raise ValueError /\
     recognize_face q (known_face_encodings w) (known_face_names w)
       FACE_RECOGNITION_TOLERANCE =
       Ok {| name := NO_REFERENCE_NAME; is_known := false; distance := None |}).
Proof.
  intros none_is_valid q w. unfold api.classify, recognize_face, api.compare_faces.
  destruct (known_face_encodings w) as [|e0 rest].
  - split.
    + intros [Hne | ->]; [contradiction | reflexivity].
    + intros _ ->. split; reflexivity.
  - split; [|discriminate]. intros _. cbv zeta.
    destruct (argmin (face_distance (e0 :: rest) q)) as [i | e]; [|reflexivity].
    rewrite index_map.
    destruct (index (face_distance (e0 :: rest) q) i) as [d | e]; [|reflexivity].
    destruct (Rle_dec d FACE_RECOGNITION_TOLERANCE); [|reflexivity].
    destruct (index (known_face_names w) i); reflexivity.
Qed.

Lemma api_classify_agrees_witness :
  api.classify true [0.3] (set_cache gallery_encs gallery_names world_alice) =
    Ok alice_match /\
  api.classify false [0.3] (set_cache gallery_encs gallery_names world_alice) =
    Ok alice_match /\
  api.classify false [0.3] (set_cache [] [] world_alice) = Raise ValueError.
Proof.
  split; [|split].
  - rewrite (proj1 (api_classify_agrees true [0.3]
                      (set_cache gallery_encs gallery_names world_alice)))
      by (left; discriminate).
    exact recognize_alice.
  - rewrite (proj1 (api_classify_agrees false [0.3]
                      (set_cache gallery_encs gallery_names world_alice)))
      by (left; discriminate).
    exact recognize_alice.
  - exact (proj1 (proj2 (api_classify_agrees false [0.3] (set_cache [] [] world_alice))
                    eq_refl eq_refl)).
Defined.

(** A refresh of src/app/main.py that cannot reach the store answers 500
    and keeps the published gallery and the table. *)
Theorem refresh_unreachable_keeps_gallery :
  forall (lib : FaceLib) w,
    connect_ok w = false ->
    fst (app_main.refresh_db_faces_endpoint w) =
      Raise (HTTPException 500
               ("Error interno al recargar rostros: " ++ CONNECT_FAILED)) /\
    cache (snd (app_main.refresh_db_faces_endpoint w)) = cache w /\
    table (snd (app_main.refresh_db_faces_endpoint w)) = table w.
Proof.
  intros lib w Hdown. rewrite refresh_run. cbv zeta. rewrite Hdown.
  split; [reflexivity|]. split; reflexivity.
Qed.

Lemma refresh_unreachable_keeps_gallery_witness :
  connect_ok world_down = false /\
  fst (app_main.refresh_db_faces_endpoint (lib := byte_lib) world_down) =
    Raise (HTTPException 500
             ("Error interno al recargar rostros: " ++ CONNECT_FAILED)) /\
  cache (snd (app_main.refresh_db_faces_endpoint (lib := byte_lib) world_down)) =
    cache world_down /\
  table (snd (app_main.refresh_db_faces_endpoint (lib := byte_lib) world_down)) =
    table world_down.
Proof.
  split; [reflexivity|].
  apply (refresh_unreachable_keeps_gallery byte_lib world_down). reflexivity.
Defined.

(** Deleting a name that a row carries, on a reachable store: the handler
    answers success, the rows with the resolved id leave the table, and the
    published gallery is the one loaded from what remains. *)
Theorem delete_existing_reloads :
  forall (lib : FaceLib) nombre w row,
    connects w = [] ->
    find (database.has_nombre nombre) (table w) = Some row ->
    fst (app_main.delete_face_by_name nombre w) =
      Ok ("Persona '" ++ nombre ++ "' eliminada exitosamente de la DB.")%string /\
    table (snd (app_main.delete_face_by_name nombre w)) =
      filter (fun r => negb (database.has_id (row_id row) r)) (table w) /\
    cache (snd (app_main.delete_face_by_name nombre w)) =
      gallery_of (filter (fun r => negb (database.has_id (row_id row) r)) (table w)).
Proof.
  intros lib nombre w row Hup Hfind.
  rewrite delete_face_by_name_run. cbv zeta.
  assert (Hok : connect_ok w = true) by (unfold connect_ok; rewrite Hup; reflexivity).
  rewrite Hok, Hfind.
  assert (Hok1 : connect_ok (connected (add_call (CallFindId nombre) w)) = true)
    by (unfold connect_ok; simpl; rewrite Hup; reflexivity).
  rewrite Hok1.
  assert (Hcount : (0 <? List.length (table w) -
                     List.length (filter (fun r => negb (database.has_id (row_id row) r))
                                    (table w)))%nat = true).
  { apply Nat.ltb_lt. apply find_some in Hfind. destruct Hfind as [Hin _].
    pose proof (filter_length_lt _ (fun r => negb (database.has_id (row_id row) r))
                  (table w) row Hin) as Hlt.
    assert (Hid : negb (database.has_id (row_id row) row) = false).
    { unfold database.has_id. rewrite Z.eqb_refl. reflexivity. }
    specialize (Hlt Hid). lia. }
  rewrite Hcount.
  match goal with |- context [connect_ok ?x] =>
    assert (Hok2 : connect_ok x = true)
      by (unfold connect_ok; simpl; rewrite Hup; reflexivity);
    rewrite Hok2
  end.
  split; [reflexivity|]. split; [reflexivity|].
  unfold cache. simpl.
  destruct (gallery_of (filter (fun r => negb (database.has_id (row_id row) r))
                          (table w))); reflexivity.
Qed.

Lemma delete_existing_reloads_witness :
  connects world_alice = [] /\
  find (database.has_nombre "alice") (table world_alice) = Some alice_row /\
  fst (app_main.delete_face_by_name (lib := byte_lib) "alice" world_alice) =
    Ok ("Persona '" ++ "alice" ++ "' eliminada exitosamente de la DB.")%string /\
  table (snd (app_main.delete_face_by_name (lib := byte_lib) "alice" world_alice)) =
    filter (fun r => negb (database.has_id (row_id alice_row) r)) (table world_alice) /\
  cache (snd (app_main.delete_face_by_name (lib := byte_lib) "alice" world_alice)) =
    gallery_of (filter (fun r => negb (database.has_id (row_id alice_row) r))
                  (table world_alice)).
Proof.
  split; [reflexivity|]. split; [reflexivity|].
  apply (delete_existing_reloads byte_lib "alice" world_alice alice_row);
    reflexivity.
Defined.

End Further.

(** ** More on the match engine *)

Section MatchEngineMore.

Import face_utils.
Local Open Scope R_scope.

(** The duplicate guard answers what the recognizer answers: a duplicate is
    a known face, reported with the same name and distance. *)
Theorem guard_delegates :
  forall q encs names tol,
    is_face_duplicate q encs names tol =
      match recognize_face q encs names tol with
      | Ok r =>
          Ok (if is_known r
              then (true, Some (name r), distance r)
              else (false, None, None))
      | Raise e => Raise e
      end.
Proof.
  intros q encs names tol. unfold is_face_duplicate, recognize_face.
  destruct encs as [|e0 rest]; [reflexivity|]. cbv zeta.
  destruct (argmin (face_distance (e0 :: rest) q)) as [i | e]; [|reflexivity].
  destruct (index (face_distance (e0 :: rest) q) i) as [d | e]; [|reflexivity].
  destruct (Rle_dec d tol); [|reflexivity].
  destruct (index names i); reflexivity.
Qed.

(** The index chosen on a gallery that is not empty, whatever the list of
    names is. *)
Lemma nearest_entry :
  forall q encs,
    encs <> [] ->
    exists i ei,
      argmin (face_distance encs q) = Ok i /\
      index (face_distance encs q) i = Ok (euclid ei q) /\
      nth_error encs i = Some ei /\
      (forall e, In e encs -> euclid ei q <= euclid e q).
Proof.
  intros q encs Hne.
  assert (Hd : face_distance encs q <> []).
  { intro E. apply Hne. apply length_zero_iff_nil.
    rewrite <- (face_distance_length encs q), E. reflexivity. }
  destruct (argmin_spec _ Hd) as (i & Harg & Hi & Hmin & _).
  rewrite face_distance_length in Hi.
  destruct (nth_error encs i) as [ei|] eqn:Hei.
  2:{ apply nth_error_None in Hei. lia. }
  assert (Hnth : forall j ej, nth_error encs j = Some ej ->
                   nth j (face_distance encs q) 0 = euclid ej q).
  { intros j ej Hj. apply nth_error_nth. apply face_distance_nth_error. assumption. }
  exists i, ei. split; [assumption|]. split; [|split; [assumption|]].
  - rewrite index_nth by (rewrite face_distance_length; assumption).
    rewrite (Hnth i ei Hei). reflexivity.
  - intros e Hin. apply In_nth_error in Hin. destruct Hin as [j Hj].
    rewrite <- (Hnth i ei Hei), <- (Hnth j e Hj). apply Hmin.
    rewrite face_distance_length. apply nth_error_Some. congruence.
Qed.

(** Whenever the recognizer answers, the answer is known exactly when it
    carries a distance within the tolerance; it carries no distance exactly
    when the gallery is empty; and a distance it carries is the least
    distance from the query to the gallery, never negative. *)
Theorem known_iff_within :
  forall q encs names tol r,
    recognize_face q encs names tol = Ok r ->
    (is_known r = true <-> exists d, distance r = Some d /\ d <= tol) /\
    (distance r = None <-> encs = []) /\
    (forall d, distance r = Some d ->
       0 <= d /\
       (exists e, In e encs /\ d = euclid e q) /\
       (forall e, In e encs -> d <= euclid e q)).
Proof.
  intros q encs names tol r Hrec.
  destruct encs as [|e0 rest].
  - injection Hrec as <-. simpl. split; [|split].
    + split; [discriminate | intros (d & Hd & _); discriminate].
    + split; reflexivity.
    + intros d Hd. discriminate.
  - assert (Hne : e0 :: rest <> []) by discriminate.
    destruct (nearest_entry q (e0 :: rest) Hne) as (i & ei & Harg & Hidx & Hei & Hmin).
    unfold recognize_face in Hrec. cbv beta iota zeta in Hrec.
    rewrite Harg, Hidx in Hrec.
    assert (Hfacts : 0 <= euclid ei q /\
                     (exists e, In e (e0 :: rest) /\ euclid ei q = euclid e q) /\
                     (forall e, In e (e0 :: rest) -> euclid ei q <= euclid e q)).
    { split; [apply euclid_nonneg|]. split; [|assumption].
      exists ei. split; [eapply nth_error_In; eassumption | reflexivity]. }
    destruct (Rle_dec (euclid ei q) tol) as [Hle | Hgt].
    + destruct (index names i) as [nm | e]; [|discriminate].
      injection Hrec as <-. simpl. split; [|split].
      * split; [intros _; exists (euclid ei q); auto | reflexivity].
      * split; discriminate.
      * intros d Hd. injection Hd as <-. exact Hfacts.
    + injection Hrec as <-. simpl. split; [|split].
      * split; [discriminate|]. intros (d & Hd & Hle). injection Hd as <-.
        contradiction.
      * split; discriminate.
      * intros d Hd. injection Hd as <-. exact Hfacts.
Qed.

(** Raising the tolerance keeps every recognition, with its name and
    distance; lowering it keeps every answer that was not a recognition. *)
Theorem tolerance_monotone :
  forall q encs names tol tol' r,
    tol <= tol' ->
    (recognize_face q encs names tol = Ok r -> is_known r = true ->
     recognize_face q encs names tol' = Ok r) /\
    (recognize_face q encs names tol' = Ok r -> is_known r = false ->
     recognize_face q encs names tol = Ok r).
Proof.
  intros q encs names tol tol' r Hle. unfold recognize_face.
  destruct encs as [|e0 rest]; [split; auto|]. cbv zeta.
  destruct (argmin (face_distance (e0 :: rest) q)) as [i | e]; [|split; auto].
  destruct (index (face_distance (e0 :: rest) q) i) as [d | e]; [|split; auto].
  destruct (Rle_dec d tol) as [H1 | H1]; destruct (Rle_dec d tol') as [H2 | H2];
    try lra; split; auto.
  - intros Hrec Hk. injection Hrec as <-. discriminate.
  - destruct (index names i); [|discriminate].
    intros Hrec Hk. injection Hrec as <-. discriminate.
Qed.

End MatchEngineMore.

(** ** The store operations (src/app/database.py) *)

Section StoreMore.

Lemma gallery_of_In :
  forall t n v,
    In (n, v) (combine (snd (gallery_of t)) (fst (gallery_of t))) <->
    exists r, In r t /\ row_nombre r = n /\ row_embedding r = DbList v.
Proof.
  intros t n v. rewrite gallery_of_listed. simpl.
  rewrite combine_fst_snd, listed_In, select_not_null_In. split.
  - intros (r & Hin & Hn & He & _). exists r. auto.
  - intros (r & Hin & Hn & He). exists r. repeat split; auto. discriminate.
Qed.

Lemma update_embedding_nombre :
  forall person_id embedding r,
    row_nombre (database.update_embedding person_id embedding r) = row_nombre r.
Proof.
  intros person_id embedding r. unfold database.update_embedding.
  destruct (database.has_id person_id r); reflexivity.
Qed.

Lemma update_embedding_id :
  forall person_id embedding r,
    row_id (database.update_embedding person_id embedding r) = row_id r.
Proof.
  intros person_id embedding r. unfold database.update_embedding.
  destruct (database.has_id person_id r); reflexivity.
Qed.

Lemma update_embedding_twice :
  forall person_id embedding r,
    database.update_embedding person_id embedding
      (database.update_embedding person_id embedding r) =
    database.update_embedding person_id embedding r.
Proof.
  intros person_id embedding r. unfold database.update_embedding.
  destruct (database.has_id person_id r) eqn:E; simpl.
  - unfold database.has_id in *. simpl. rewrite E. reflexivity.
  - rewrite E. reflexivity.
Qed.

Lemma find_update_embedding :
  forall nombre person_id embedding t,
    find (database.has_nombre nombre)
         (map (database.update_embedding person_id embedding) t) =
    option_map (database.update_embedding person_id embedding)
               (find (database.has_nombre nombre) t).
Proof.
  intros nombre person_id embedding t. induction t as [|r t IH]; [reflexivity|].
  simpl. unfold database.has_nombre at 1.
  rewrite update_embedding_nombre.
  fold (database.has_nombre nombre r).
  destruct (database.has_nombre nombre r); [reflexivity | exact IH].
Qed.

Lemma find_app_none :
  forall (A : Type) (f : A -> bool) (l : list A) (x : A),
    find f l = None -> f x = true -> find f (l ++ [x]) = Some x.
Proof.
  intros A f l x. induction l as [|a l IH]; simpl; intros Hn Hx.
  - rewrite Hx. reflexivity.
  - destruct (f a); [discriminate | auto].
Qed.

Lemma map_untouched :
  forall (A : Type) (f : A -> A) (l : list A),
    (forall x, In x l -> f x = x) -> map f l = l.
Proof.
  intros A f l H. induction l as [|a l IH]; [reflexivity|].
  simpl. rewrite H by (left; reflexivity). rewrite IH; [reflexivity|].
  intros x Hx. apply H. right. assumption.
Qed.

(** [save_face_to_db] on a reachable store is an upsert by name.  A name
    that no row carries gets a new row with the next id.  For a name that a
    row carries no row is added or removed: the table has as many rows as
    before, every row with another id than the one returned is still in it,
    and every row in it has the id and the name of a row that was there, and
    is that row unless it has the id returned.  In both cases the id
    returned belongs to a row with that name and that embedding, so the next
    load lists the name with that vector. *)
Theorem save_then_load :
  forall nombre embedding w,
    connect_ok w = true ->
    exists person_id w',
      database.save_face_to_db nombre embedding w = (Ok person_id, w') /\
      (exists r, In r (table w') /\ row_id r = person_id /\
                 row_nombre r = nombre /\ row_embedding r = DbList embedding) /\
      In (nombre, embedding)
         (combine (snd (gallery_of (table w'))) (fst (gallery_of (table w')))) /\
      (find (database.has_nombre nombre) (table w) = None ->
       person_id = next_id w /\
       next_id w' = (next_id w + 1)%Z /\
       table w' = table w ++ [{| row_id := next_id w; row_nombre := nombre;
                                 row_embedding := DbList embedding |}]) /\
      (forall row,
          find (database.has_nombre nombre) (table w) = Some row ->
          person_id = row_id row /\
          next_id w' = next_id w /\
          List.length (table w') = List.length (table w) /\
          (forall r, In r (table w) -> row_id r <> row_id row -> In r (table w')) /\
          (forall r', In r' (table w') ->
                      exists r, In r (table w) /\
                                row_id r' = row_id r /\
                                row_nombre r' = row_nombre r /\
                                (row_id r <> row_id row -> r' = r))).
Proof.
  intros nombre embedding w Hup. rewrite save_run. cbv zeta. rewrite Hup.
  destruct (find (database.has_nombre nombre) (table w)) as [row|] eqn:Hfind.
  - pose proof (find_some _ _ Hfind) as [Hin Hname].
    assert (Hrow : exists r,
               In r (map (database.update_embedding (row_id row) embedding) (table w)) /\
               row_id r = row_id row /\ row_nombre r = nombre /\
               row_embedding r = DbList embedding).
    { exists (database.update_embedding (row_id row) embedding row).
      split; [apply in_map; assumption|].
      unfold database.update_embedding, database.has_id. rewrite Z.eqb_refl. simpl.
      repeat split. unfold database.has_nombre in Hname.
      apply String.eqb_eq. assumption. }
    do 2 eexists. split; [reflexivity|]. split; [exact Hrow|]. split; [|split].
    + apply gallery_of_In. destruct Hrow as (r & Hr & _ & Hn & He).
      exists r. auto.
    + discriminate.
    + intros row' Heq. injection Heq as <-. simpl.
      split; [reflexivity|]. split; [reflexivity|]. split; [|split].
      * apply length_map.
      * intros r Hr Hid.
        replace r with (database.update_embedding (row_id row) embedding r).
        -- apply in_map. assumption.
        -- unfold database.update_embedding, database.has_id.
           destruct (Z.eqb_spec (row_id r) (row_id row)); [contradiction | reflexivity].
      * intros r' Hr'. apply in_map_iff in Hr'. destruct Hr' as (r & <- & Hr).
        exists r. split; [exact Hr|].
        split; [apply update_embedding_id|].
        split; [apply update_embedding_nombre|].
        intros Hid. unfold database.update_embedding, database.has_id.
        destruct (Z.eqb_spec (row_id r) (row_id row)); [contradiction | reflexivity].
  - assert (Hrow : exists r,
               In r (table w ++ [{| row_id := next_id w; row_nombre := nombre;
                                    row_embedding := DbList embedding |}]) /\
               row_id r = next_id w /\ row_nombre r = nombre /\
               row_embedding r = DbList embedding).
    { eexists. split; [apply in_or_app; right; left; reflexivity|].
      repeat split. }
    do 2 eexists. split; [reflexivity|]. split; [exact Hrow|]. split; [|split].
    + apply gallery_of_In. destruct Hrow as (r & Hr & _ & Hn & He).
      exists r. auto.
    + intros _. repeat split.
    + discriminate.
Qed.

(** Saving the same name and vector twice leaves the table as one save
    does and returns the same id, provided the store is reachable and, for a
    new name, no row already holds the id the sequence hands out. *)
Theorem save_twice :
  forall nombre embedding w,
    connects w = [] ->
    (find (database.has_nombre nombre) (table w) = None ->
     forallb (fun r => negb (database.has_id (next_id w) r)) (table w) = true) ->
    fst (database.save_face_to_db nombre embedding
           (snd (database.save_face_to_db nombre embedding w))) =
      fst (database.save_face_to_db nombre embedding w) /\
    table (snd (database.save_face_to_db nombre embedding
                  (snd (database.save_face_to_db nombre embedding w)))) =
      table (snd (database.save_face_to_db nombre embedding w)) /\
    next_id (snd (database.save_face_to_db nombre embedding
                    (snd (database.save_face_to_db nombre embedding w)))) =
      next_id (snd (database.save_face_to_db nombre embedding w)).
Proof.
  intros nombre embedding w Hup Hfresh.
  assert (Hok : connect_ok w = true) by (unfold connect_ok; rewrite Hup; reflexivity).
  rewrite (save_run nombre embedding w). cbv zeta. rewrite Hok.
  destruct (find (database.has_nombre nombre) (table w)) as [row|] eqn:Hfind.
  - cbn [fst snd]. rewrite save_run. cbv zeta.
    match goal with |- context [connect_ok ?x] =>
      assert (Hok2 : connect_ok x = true)
        by (unfold connect_ok; simpl; rewrite Hup; reflexivity);
      rewrite Hok2
    end.
    cbn [table set_table connected set_connects add_call next_id].
    rewrite find_update_embedding, Hfind. cbn [option_map].
    rewrite update_embedding_id. cbn [fst snd table set_table next_id].
    split; [reflexivity|]. split; [|reflexivity].
    rewrite map_map. apply map_ext. intros r. apply update_embedding_twice.
  - specialize (Hfresh eq_refl).
    cbn [fst snd]. rewrite save_run. cbv zeta.
    match goal with |- context [connect_ok ?x] =>
      assert (Hok2 : connect_ok x = true)
        by (unfold connect_ok; simpl; rewrite Hup; reflexivity);
      rewrite Hok2
    end.
    cbn [table set_table connected set_connects add_call next_id].
    rewrite (find_app_none _ _ _ _ Hfind)
      by (unfold database.has_nombre; simpl; apply String.eqb_refl).
    cbn [row_id fst snd table set_table next_id].
    split; [reflexivity|]. split; [|reflexivity].
    apply map_untouched. intros r Hr. apply in_app_or in Hr.
    unfold database.update_embedding.
    destruct Hr as [Hr | [<- | []]].
    + rewrite forallb_forall in Hfresh. specialize (Hfresh r Hr).
      apply negb_true_iff in Hfresh. rewrite Hfresh. reflexivity.
    + unfold database.has_id. simpl. rewrite Z.eqb_refl. reflexivity.
Qed.

End StoreMore.

Section StoreDelete.

Lemma rowcount_positive :
  forall (f : Row -> bool) (t : list Row),
    (0 <? List.length t - List.length (filter (fun r => negb (f r)) t))%nat = existsb f t.
Proof.
  intros f t. induction t as [|r t IH]; [reflexivity|].
  cbn [filter existsb List.length].
  pose proof (filter_length_le (fun r => negb (f r)) t) as Hle.
  destruct (f r); cbn [negb orb List.length].
  - apply Nat.ltb_lt. lia.
  - rewrite <- IH. f_equal.
Qed.

Lemma existsb_filter_negb :
  forall (f : Row -> bool) (t : list Row),
    existsb f (filter (fun r => negb (f r)) t) = false.
Proof.
  intros f t. induction t as [|r t IH]; [reflexivity|].
  simpl. destruct (f r) eqn:E; simpl; [exact IH | rewrite E; exact IH].
Qed.

(** [delete_face_from_db] on a reachable store removes exactly the rows
    with the given id, in place, and returns whether there was one; a second
    delete of the same id finds nothing and returns [false]. *)
Theorem delete_removes_id :
  forall person_id w,
    connect_ok w = true ->
    exists w',
      database.delete_face_from_db person_id w =
        (Ok (existsb (database.has_id person_id) (table w)), w') /\
      table w' = filter (fun r => negb (database.has_id person_id r)) (table w) /\
      existsb (database.has_id person_id) (table w') = false /\
      next_id w' = next_id w /\
      cache w' = cache w /\
      (connect_ok w' = true ->
       fst (database.delete_face_from_db person_id w') = Ok false /\
       table (snd (database.delete_face_from_db person_id w')) = table w').
Proof.
  intros person_id w Hup. rewrite delete_run. cbv zeta. rewrite Hup.
  rewrite rowcount_positive. eexists. split; [reflexivity|].
  cbn [table set_table next_id].
  split; [reflexivity|]. split; [apply existsb_filter_negb|].
  split; [reflexivity|]. split; [reflexivity|].
  intros Hup'. rewrite delete_run. cbv zeta. rewrite Hup'.
  rewrite rowcount_positive. cbn [table set_table fst snd].
  rewrite existsb_filter_negb. split; [reflexivity|].
  apply filter_all_true. apply forallb_forall. intros r Hr.
  apply filter_In in Hr. destruct Hr as [_ Hr]. exact Hr.
Qed.

(** With the server unreachable each of the three operations raises the
    driver's error and leaves table, id sequence and cache as they were. *)
Theorem store_down_changes_nothing :
  forall w,
    connect_ok w = false ->
    (fst (database.load_known_faces_from_db w) = Raise (Psycopg2Error CONNECT_FAILED) /\
     table (snd (database.load_known_faces_from_db w)) = table w /\
     cache (snd (database.load_known_faces_from_db w)) = cache w) /\
    (forall nombre embedding,
        fst (database.save_face_to_db nombre embedding w) =
          Raise (Psycopg2Error CONNECT_FAILED) /\
        table (snd (database.save_face_to_db nombre embedding w)) = table w /\
        next_id (snd (database.save_face_to_db nombre embedding w)) = next_id w /\
        cache (snd (database.save_face_to_db nombre embedding w)) = cache w) /\
    (forall person_id,
        fst (database.delete_face_from_db person_id w) =
          Raise (Psycopg2Error CONNECT_FAILED) /\
        table (snd (database.delete_face_from_db person_id w)) = table w /\
        cache (snd (database.delete_face_from_db person_id w)) = cache w).
Proof.
  intros w Hdown. split; [|split].
  - rewrite load_run, Hdown. repeat split.
  - intros nombre embedding. rewrite save_run. cbv zeta. rewrite Hdown. repeat split.
  - intros person_id. rewrite delete_run. cbv zeta. rewrite Hdown. repeat split.
Qed.

Context {lib : FaceLib}.

Lemma get_db_status_run :
  forall isolation_level w,
    database.get_db_status isolation_level w =
      (Ok (if connect_ok w then
             match isolation_level with
             | Some _ => {| database.status := "Conectado";
                            database.details := "Verificación exitosa" |}
             | None => {| database.status := "Desconectado";
                          database.details := "Conexión inactiva" |}
             end
           else {| database.status := "Desconectado";
                   database.details :=
                     "Error durante la verificación: " ++ CONNECT_FAILED |}),
       connected w).
Proof.
  intros isolation_level w. unfold database.get_db_status, try_except, bind.
  rewrite get_db_connection_run.
  destruct (connect_ok w); [destruct isolation_level|]; reflexivity.
Qed.

(** The status page never fails, whatever the state of the store: it
    answers with the number of cached vectors and leaves table and cache as
    they are.  It reports "Conectado" exactly when the server was reached and
    the driver gave the connection an isolation level.  In every world the
    service can reach, the number it reports is the number of names that the
    list page returns. *)
Theorem status_never_fails :
  forall isolation_level w,
    exists info w',
      app_main.get_status_endpoint isolation_level w = (Ok info, w') /\
      app_main.loaded_faces_count info = List.length (known_face_encodings w) /\
      table w' = table w /\
      cache w' = cache w /\
      (app_main.database_connection info = "Conectado" <->
       connect_ok w = true /\ exists level, isolation_level = Some level) /\
      (reachable w ->
       exists names w'',
         app_main.list_known_faces_endpoint w' = (Ok names, w'') /\
         app_main.loaded_faces_count info = List.length names).
Proof.
  intros isolation_level w.
  unfold app_main.get_status_endpoint, bind, get, ret.
  rewrite get_db_status_run.
  do 2 eexists. split; [reflexivity|]. cbn [app_main.loaded_faces_count].
  split; [reflexivity|]. split; [reflexivity|]. split; [reflexivity|]. split.
  - cbn [app_main.database_connection].
    destruct (connect_ok w); [destruct isolation_level as [level|]|]; simpl; split;
      try discriminate; try (intros [H _]; discriminate);
      try (intros [_ [level' H]]; discriminate).
    + intros _. split; [reflexivity | exists level; reflexivity].
    + reflexivity.
  - intros Hr. apply reachable_lengths in Hr.
    do 2 eexists. split; [reflexivity|]. simpl. exact Hr.
Qed.

End StoreDelete.

(** ** The read handlers of src/app/main.py *)

Section ReadHandlers.
Context {lib : FaceLib}.

Import face_utils.
Local Open Scope R_scope.

(** The recognition handler writes nothing: whatever it answers, the world
    is the one it started in.  It refuses an upload whose content type is
    not an image with 400; on an image that decodes, a photo without a face
    gets the normal answer "No Rostro Detectado", an empty gallery gets the
    "no reference" answer, and otherwise, on a gallery whose two lists have
    one length, the answer is the one [recognize_face] of face_utils gives
    for the first face at the fixed tolerance. *)
Theorem recognize_endpoint_outcomes :
  forall file w,
    snd (app_main.recognize_face file w) = w /\
    (app_main.is_image_type (content_type file) = false ->
     fst (app_main.recognize_face file w) =
       Raise (HTTPException 400
                "Formato de archivo no válido. Se esperaba una imagen.")) /\
    (forall contents img,
        app_main.is_image_type (content_type file) = true ->
        upload_read file = inr contents ->
        load_image_file contents = inr img ->
        (face_locations img = inr [] ->
         fst (app_main.recognize_face file w) =
           Ok {| name := "No Rostro Detectado"; is_known := false;
                 distance := None |}) /\
        (forall enc meta,
            extract_face_embedding img = (true, Some enc, meta) ->
            (known_face_encodings w = [] ->
             fst (app_main.recognize_face file w) =
               Ok {| name := NO_REFERENCE_NAME; is_known := false;
                     distance := None |}) /\
            (List.length (known_face_names w) = List.length (known_face_encodings w) ->
             fst (app_main.recognize_face file w) =
               recognize_face enc (known_face_encodings w) (known_face_names w)
                 FACE_RECOGNITION_TOLERANCE))).
Proof.
  intros file w. split; [symmetry; apply recognize_face_unchanged|]. split.
  - intros Hct. unfold app_main.recognize_face. rewrite Hct. reflexivity.
  - intros contents img Hct Hread Himg.
    assert (Hrun : app_main.recognize_face file w =
              match extract_face_embedding img with
              | (true, Some test_face_encoding, _) =>
                  match known_face_encodings w with
                  | [] => (Ok {| name := NO_REFERENCE_NAME; is_known := false;
                                 distance := None |}, w)
                  | _ :: _ =>
                      try_except
                        (lift (recognize_face test_face_encoding
                                 (known_face_encodings w) (known_face_names w)
                                 FACE_RECOGNITION_TOLERANCE))
                        (fun e => raise (HTTPException 500
                                           ("Error durante la comparación de rostros: "
                                              ++ exc_str e))) w
                  end
              | _ => (Ok {| name := "No Rostro Detectado"; is_known := false;
                            distance := None |}, w)
              end).
    { unfold app_main.recognize_face, app_main.decode_upload, process_image.
      rewrite Hct, Hread. cbv beta iota delta [negb bind ret].
      rewrite Himg. cbv beta iota delta [bind ret get].
      destruct (extract_face_embedding img) as [[[|] [enc|]] meta]; try reflexivity.
      destruct (known_face_encodings w); reflexivity. }
    split.
    + intros Hnone. rewrite Hrun. unfold extract_face_embedding. rewrite Hnone.
      reflexivity.
    + intros enc meta Hface. rewrite Hrun, Hface. split.
      * intros Hempty. rewrite Hempty. reflexivity.
      * intros Hlen. destruct (known_face_encodings w) as [|e0 rest] eqn:Hencs.
        -- reflexivity.
        -- assert (Hne : e0 :: rest <> []) by discriminate.
           destruct (best_match enc (e0 :: rest) (known_face_names w)
                       FACE_RECOGNITION_TOLERANCE Hlen Hne)
             as (i & ei & ni & _ & _ & _ & _ & Hrec & _).
           unfold try_except, lift. rewrite Hrec. reflexivity.
Qed.

End ReadHandlers.

(** ** A delete whose reload fails (src/app/main.py) *)

Section WriteHandlers.
Context {lib : FaceLib}.

(** A delete whose reload cannot reach the store still answers success: the
    rows are gone from the table, and the gallery published is the old one,
    so a deleted name that was listed stays listed. *)
Theorem delete_with_failed_reload :
  forall nombre w row,
    connect_ok w = true ->
    connect_ok (connected w) = true ->
    connect_ok (connected (connected w)) = false ->
    find (database.has_nombre nombre) (table w) = Some row ->
    fst (app_main.delete_face_by_name nombre w) =
      Ok ("Persona '" ++ nombre ++ "' eliminada exitosamente de la DB.")%string /\
    table (snd (app_main.delete_face_by_name nombre w)) =
      filter (fun r => negb (database.has_id (row_id row) r)) (table w) /\
    cache (snd (app_main.delete_face_by_name nombre w)) = cache w /\
    (In nombre (known_face_names w) ->
     In nombre (known_face_names (snd (app_main.delete_face_by_name nombre w)))).
Proof.
  intros nombre w row Hup1 Hup2 Hdown Hfind.
  rewrite delete_face_by_name_run. cbv zeta. rewrite Hup1, Hfind.
  change (connect_ok (connected (add_call (CallFindId nombre) w)))
    with (connect_ok (connected w)).
  rewrite Hup2.
  assert (Hcount : (0 <? List.length (table w) -
                     List.length (filter (fun r => negb (database.has_id (row_id row) r))
                                    (table w)))%nat = true).
  { rewrite rowcount_positive. apply existsb_exists.
    pose proof (find_some _ _ Hfind) as [Hin _]. exists row. split; [assumption|].
    unfold database.has_id. apply Z.eqb_refl. }
  rewrite Hcount.
  match goal with |- context [connect_ok ?x] =>
    change (connect_ok x) with (connect_ok (connected (connected w)))
  end.
  rewrite Hdown. repeat split; auto.
Qed.

End WriteHandlers.

(** ** The older service (src/api.py) *)

Section LegacyService.

Lemma api_connection_run :
  forall w,
    api.get_db_connection w =
      (if connect_ok w then Ok tt
       else Raise (HTTPException 500
                     ("No se pudo conectar a la base de datos: " ++ CONNECT_FAILED)),
       connected w).
Proof.
  intros w. unfold api.get_db_connection, connect_ok, connected.
  destruct (connects w) as [|[|] rest]; reflexivity.
Qed.

Lemma api_append_rows_run :
  forall rows w,
    api.append_rows rows w =
      (Ok tt,
       set_cache (known_face_encodings w ++ map (fun row => api.np_array (snd row)) rows)
                 (known_face_names w ++ map fst rows) w).
Proof.
  induction rows as [|[nombre d] rest IH]; intros w.
  - simpl. rewrite !app_nil_r. destruct w; reflexivity.
  - cbn [api.append_rows]. unfold bind, modify. rewrite IH.
    cbn [known_face_encodings known_face_names set_cache map fst snd].
    rewrite <- !app_assoc. reflexivity.
Qed.

(** The gallery the loader of src/api.py publishes from a table. *)
Lemma api_load_run :
  forall w,
    api.load_known_faces_from_db w =
      if connect_ok w then
        (Ok tt,
         set_cache (map (fun row => api.np_array (snd row))
                        (database.select_not_null (table w)))
                   (map fst (database.select_not_null (table w)))
                   (connected w))
      else
        (Raise (HTTPException 500
                  ("No se pudo conectar a la base de datos: " ++ CONNECT_FAILED)),
         connected (set_cache [] [] w)).
Proof.
  intros w. destruct (connect_ok w) eqn:Hup.
  - unfold api.load_known_faces_from_db, bind, modify, try_except, get.
    rewrite api_connection_run.
    change (connect_ok (set_cache [] [] w)) with (connect_ok w). rewrite Hup.
    rewrite api_append_rows_run. reflexivity.
  - apply api_load_failure. assumption.
Qed.

Lemma np_array_listed :
  forall t,
    forallb (fun r => database.is_null (row_embedding r) || list_valued r) t = true ->
    (map (fun row => api.np_array (snd row)) (database.select_not_null t),
     map fst (database.select_not_null t)) = gallery_of t.
Proof.
  intros t Hall. rewrite gallery_of_listed, listed_select.
  unfold database.select_not_null.
  induction t as [|r t IH]; [reflexivity|].
  simpl in Hall. apply andb_true_iff in Hall. destruct Hall as [Hr Ht].
  specialize (IH Ht). injection IH as IHe IHn.
  simpl. unfold list_valued in Hr.
  destruct (row_embedding r) eqn:E; simpl in *; rewrite ?E; simpl;
    try discriminate; rewrite IHe, IHn; reflexivity.
Qed.

(** On a reachable store the loader of src/api.py publishes one entry per
    row whose embedding is not null, in table order, and touches no row;
    when every stored embedding is a list, that is the gallery the loader of
    src/app/database.py builds. *)
Theorem api_loader_agrees :
  forall w,
    connect_ok w = true ->
    fst (api.load_known_faces_from_db w) = Ok tt /\
    known_face_names (snd (api.load_known_faces_from_db w)) =
      map row_nombre (filter (fun r => negb (database.is_null (row_embedding r)))
                        (table w)) /\
    List.length (known_face_encodings (snd (api.load_known_faces_from_db w))) =
      List.length (known_face_names (snd (api.load_known_faces_from_db w))) /\
    table (snd (api.load_known_faces_from_db w)) = table w /\
    (forallb (fun r => database.is_null (row_embedding r) || list_valued r)
       (table w) = true ->
     cache (snd (api.load_known_faces_from_db w)) = gallery_of (table w)).
Proof.
  intros w Hup. rewrite api_load_run, Hup. cbn [fst snd].
  split; [reflexivity|]. split.
  { simpl. unfold database.select_not_null. rewrite map_map. reflexivity. }
  split; [simpl; rewrite !length_map; reflexivity|].
  split; [reflexivity|].
  intros Hall. unfold cache. simpl. apply np_array_listed. assumption.
Qed.

(** [delete_face] of src/api.py, case by case: an unreachable store gives
    500 and changes nothing; a name that no row carries gives 404 and
    changes nothing; otherwise every row with that name is removed, and the
    gallery is reloaded from what remains, or, when the reload cannot reach
    the store, left empty behind a 500. *)
Theorem api_delete_face_cases :
  forall nombre w,
    (connect_ok w = false ->
     fst (api.delete_face nombre w) =
       Raise (HTTPException 500
                ("No se pudo conectar a la base de datos: " ++ CONNECT_FAILED)) /\
     table (snd (api.delete_face nombre w)) = table w /\
     cache (snd (api.delete_face nombre w)) = cache w) /\
    (connect_ok w = true ->
     existsb (database.has_nombre nombre) (table w) = false ->
     fst (api.delete_face nombre w) =
       Raise (HTTPException 404
                ("Persona con nombre '" ++ nombre ++ "' no encontrada.")) /\
     table (snd (api.delete_face nombre w)) = table w /\
     cache (snd (api.delete_face nombre w)) = cache w) /\
    (connect_ok w = true ->
     existsb (database.has_nombre nombre) (table w) = true ->
     table (snd (api.delete_face nombre w)) =
       filter (fun r => negb (database.has_nombre nombre r)) (table w) /\
     (connect_ok (connected w) = true ->
      fst (api.delete_face nombre w) =
        Ok ("Persona '" ++ nombre ++ "' eliminada exitosamente de la DB.")%string /\
      known_face_names (snd (api.delete_face nombre w)) =
        map row_nombre
          (filter (fun r => negb (database.is_null (row_embedding r)))
             (filter (fun r => negb (database.has_nombre nombre r)) (table w)))) /\
     (connect_ok (connected w) = false ->
      fst (api.delete_face nombre w) =
        Raise (HTTPException 500
                 ("No se pudo conectar a la base de datos: " ++ CONNECT_FAILED)) /\
      cache (snd (api.delete_face nombre w)) = ([], []))).
Proof.
  intros nombre w.
  assert (Hrun : api.delete_face nombre w =
            if connect_ok w then
              let kept := filter (fun r => negb (database.has_nombre nombre r))
                            (table w) in
              let w1 := set_table kept (next_id w) (connected w) in
              if existsb (database.has_nombre nombre) (table w) then
                match api.load_known_faces_from_db w1 with
                | (Ok _, w2) =>
                    (Ok ("Persona '" ++ nombre
                           ++ "' eliminada exitosamente de la DB.")%string, w2)
                | (Raise e, w2) =>
                    (match e with
                     | Psycopg2Error m =>
                         Raise (HTTPException 500
                                  ("Error en la base de datos al eliminar: " ++ m))
                     | _ => Raise e
                     end, w2)
                end
              else
                (Raise (HTTPException 404
                          ("Persona con nombre '" ++ nombre ++ "' no encontrada.")),
                 w1)
            else
              (Raise (HTTPException 500
                        ("No se pudo conectar a la base de datos: "
                           ++ CONNECT_FAILED)), connected w)).
  { unfold api.delete_face, try_except, bind, modify, get.
    rewrite api_connection_run. destruct (connect_ok w); [|reflexivity].
    cbv zeta. change (table (connected w)) with (table w).
    change (next_id (connected w)) with (next_id w).
    rewrite rowcount_positive.
    destruct (existsb (database.has_nombre nombre) (table w)); [|reflexivity].
    destruct (api.load_known_faces_from_db _) as [[u | e] w2]; [reflexivity|].
    destruct e; reflexivity. }
  rewrite Hrun. split; [|split].
  - intros ->. repeat split.
  - intros -> Hnone. cbv zeta. rewrite Hnone. cbn [fst snd table set_table].
    split; [reflexivity|]. split; [|reflexivity].
    apply filter_all_true. apply forallb_forall. intros r Hr.
    apply negb_true_iff.
    destruct (database.has_nombre nombre r) eqn:E; [|reflexivity].
    assert (Hex : existsb (database.has_nombre nombre) (table w) = true)
      by (apply existsb_exists; exists r; auto).
    congruence.
  - intros -> Hsome. cbv zeta. rewrite Hsome. rewrite api_load_run.
    change (connect_ok (set_table (filter (fun r => negb (database.has_nombre nombre r))
                                     (table w)) (next_id w) (connected w)))
      with (connect_ok (connected w)).
    destruct (connect_ok (connected w)); split; try reflexivity; split;
      try discriminate; intros _; split; try reflexivity.
    simpl. unfold database.select_not_null. rewrite map_map. reflexivity.
Qed.

End LegacyService.

Section LegacyRegistration.
Context {lib : FaceLib} {cv : Cv2Lib}.

Import face_utils.
Local Open Scope R_scope.

(** [_register_face] once the photo is decoded and the embedding to store is
    known, on a reachable store. *)
Lemma api_register_run :
  forall nombre local foto_bytes image d w,
    local_file local = Some foto_bytes ->
    imdecode foto_bytes = Some image ->
    (face_locations (cvtColor image) = inr [] /\ d = DbNull \/
     exists loc locs enc encs,
       face_locations (cvtColor image) = inr (loc :: locs) /\
       face_encodings (cvtColor image) (loc :: locs) = inr (enc :: encs) /\
       d = DbList enc) ->
    connect_ok w = true ->
    api._register_face nombre local w =
      let t' :=
        if existsb (database.has_nombre nombre) (table w)
        then map (api.set_embedding_by_name nombre d) (table w)
        else table w ++ [{| row_id := next_id w; row_nombre := nombre;
                            row_embedding := d |}] in
      let n' :=
        if existsb (database.has_nombre nombre) (table w)
        then next_id w else (next_id w + 1)%Z in
      match api.load_known_faces_from_db (set_table t' n' (connected w)) with
      | (Ok _, w') =>
          (Ok {| api.message := "'" ++ nombre ++ "' registrado/actualizado.";
                 api.nombre := nombre |}, w')
      | (Raise e, w') => (Raise e, w')
      end.
Proof.
  intros nombre local foto_bytes image d w Hfile Hdec Hface Hup.
  unfold api._register_face. rewrite Hfile, Hdec. cbv zeta.
  assert (Hemb :
    forall (k : EmbeddingData -> M api.LocalRegisterResponse),
      bind (lib_call (face_locations (cvtColor image)))
        (fun locs =>
           bind (match locs with
                 | [] => ret DbNull
                 | _ :: _ =>
                     bind (lib_call (face_encodings (cvtColor image) locs))
                       (fun encs => bind (lift (index encs 0))
                                      (fun emb => ret (DbList emb)))
                 end) k) w = k d w).
  { intros k. destruct Hface as [[Hnone ->] | (loc & locs & enc & encs & Hl & He & ->)].
    - rewrite Hnone. reflexivity.
    - rewrite Hl. unfold bind at 1. unfold lib_call at 1. unfold ret at 1.
      unfold bind at 1. unfold bind at 1. rewrite He. reflexivity. }
  rewrite Hemb. unfold bind, modify, get. rewrite api_connection_run, Hup.
  change (table (connected w)) with (table w).
  change (next_id (connected w)) with (next_id w).
  cbv zeta.
  destruct (existsb (database.has_nombre nombre) (table w)); cbv beta iota;
    destruct (api.load_known_faces_from_db _) as [[u | e] w']; reflexivity.
Qed.

(** Registering with a photo in which no face is found stores a NULL
    embedding under the name: on a reachable store the handler answers
    success, afterwards every row with that name has no embedding, there is
    such a row, and the name is not in the published gallery, whatever was
    stored and published for it before. *)
Theorem api_register_without_face_erases :
  forall nombre local foto_bytes image w,
    local_file local = Some foto_bytes ->
    imdecode foto_bytes = Some image ->
    face_locations (cvtColor image) = inr [] ->
    connects w = [] ->
    exists resp w',
      api._register_face nombre local w = (Ok resp, w') /\
      (exists r, In r (table w') /\ row_nombre r = nombre) /\
      (forall r, In r (table w') -> row_nombre r = nombre -> row_embedding r = DbNull) /\
      (In nombre (known_face_names w') -> False).
Proof.
  intros nombre local foto_bytes image w Hfile Hdec Hnone Hup.
  assert (Hok : connect_ok w = true) by (unfold connect_ok; rewrite Hup; reflexivity).
  rewrite (api_register_run nombre local foto_bytes image DbNull w Hfile Hdec
             (or_introl (conj Hnone eq_refl)) Hok).
  cbv zeta. rewrite api_load_run.
  match goal with |- context [connect_ok ?x] =>
    assert (Hok2 : connect_ok x = true)
      by (unfold connect_ok; simpl; rewrite Hup; reflexivity);
    rewrite Hok2
  end.
  set (t' := if existsb (database.has_nombre nombre) (table w)
             then map (api.set_embedding_by_name nombre DbNull) (table w)
             else table w ++ [{| row_id := next_id w; row_nombre := nombre;
                                 row_embedding := DbNull |}]).
  assert (Hnull : forall r, In r t' -> row_nombre r = nombre -> row_embedding r = DbNull).
  { intros r Hr Hn. subst t'.
    destruct (existsb (database.has_nombre nombre) (table w)) eqn:Hex.
    - apply in_map_iff in Hr. destruct Hr as (r0 & <- & Hr0).
      unfold api.set_embedding_by_name in *.
      destruct (database.has_nombre nombre r0) eqn:E; [reflexivity|].
      simpl in Hn. unfold database.has_nombre in E.
      rewrite Hn, String.eqb_refl in E. discriminate.
    - apply in_app_or in Hr. destruct Hr as [Hr | [<- | []]]; [|reflexivity].
      assert (Hex' : existsb (database.has_nombre nombre) (table w) = true).
      { apply existsb_exists. exists r. split; [assumption|].
        unfold database.has_nombre. rewrite Hn. apply String.eqb_refl. }
      congruence. }
  do 2 eexists. split; [reflexivity|].
  cbn [table set_table set_cache connected set_connects known_face_names].
  split; [|split; [exact Hnull|]].
  - subst t'. destruct (existsb (database.has_nombre nombre) (table w)) eqn:Hex.
    + apply existsb_exists in Hex. destruct Hex as (r & Hr & Hn).
      exists (api.set_embedding_by_name nombre DbNull r).
      split; [apply in_map; assumption|].
      unfold api.set_embedding_by_name. rewrite Hn. simpl.
      unfold database.has_nombre in Hn. apply String.eqb_eq in Hn. exact Hn.
    + eexists. split; [apply in_or_app; right; left; reflexivity | reflexivity].
  - intros Hin. apply in_map_iff in Hin. destruct Hin as ([n d] & Hn & Hin).
    simpl in Hn. subst n. apply select_not_null_In in Hin.
    destruct Hin as (r & Hr & Hrn & Hd & Hnn).
    apply Hnn. rewrite <- Hd. apply Hnull; assumption.
Qed.

(** Registration in src/api.py has no duplicate guard: on a reachable store
    whose embeddings are all lists, a new name with a detected face is
    appended to the table and to the published gallery, however close its
    vector is to a stored one; in particular when it equals one. *)
Theorem api_register_has_no_guard :
  forall nombre local foto_bytes image loc locs enc encs w,
    local_file local = Some foto_bytes ->
    imdecode foto_bytes = Some image ->
    face_locations (cvtColor image) = inr (loc :: locs) ->
    face_encodings (cvtColor image) (loc :: locs) = inr (enc :: encs) ->
    connects w = [] ->
    existsb (database.has_nombre nombre) (table w) = false ->
    forallb (fun r => database.is_null (row_embedding r) || list_valued r)
      (table w) = true ->
    exists resp w',
      api._register_face nombre local w = (Ok resp, w') /\
      table w' = table w ++ [{| row_id := next_id w; row_nombre := nombre;
                                row_embedding := DbList enc |}] /\
      known_face_encodings w' = fst (gallery_of (table w)) ++ [enc] /\
      known_face_names w' = snd (gallery_of (table w)) ++ [nombre] /\
      (In enc (fst (gallery_of (table w))) ->
       exists i j,
         (i < j)%nat /\
         nth_error (known_face_encodings w') i = Some enc /\
         nth_error (known_face_encodings w') j = Some enc).
Proof.
  intros nombre local foto_bytes image loc locs enc encs w
         Hfile Hdec Hlocs Hencs Hup Hnew Hall.
  assert (Hok : connect_ok w = true) by (unfold connect_ok; rewrite Hup; reflexivity).
  rewrite (api_register_run nombre local foto_bytes image (DbList enc) w Hfile Hdec)
    by (try assumption; right; exists loc, locs, enc, encs; auto).
  cbv zeta. rewrite Hnew. rewrite api_load_run.
  match goal with |- context [connect_ok ?x] =>
    assert (Hok2 : connect_ok x = true)
      by (unfold connect_ok; simpl; rewrite Hup; reflexivity);
    rewrite Hok2
  end.
  cbn [table set_table connected set_connects].
  assert (Hall' : forallb (fun r => database.is_null (row_embedding r) || list_valued r)
                    (table w ++ [{| row_id := next_id w; row_nombre := nombre;
                                    row_embedding := DbList enc |}]) = true).
  { rewrite forallb_app, Hall. reflexivity. }
  pose proof (np_array_listed _ Hall') as Hg. rewrite gallery_of_snoc in Hg.
  injection Hg as Hge Hgn.
  do 2 eexists. split; [reflexivity|].
  cbn [table set_table set_cache connected set_connects
       known_face_names known_face_encodings].
  split; [reflexivity|]. split; [exact Hge|]. split; [exact Hgn|].
  intros Hin. rewrite Hge. apply In_nth_error in Hin. destruct Hin as [i Hi].
  exists i, (List.length (fst (gallery_of (table w)))).
  assert (Hlt : (i < List.length (fst (gallery_of (table w))))%nat)
    by (apply nth_error_Some; congruence).
  split; [exact Hlt|]. split.
  - rewrite nth_error_app1 by exact Hlt. exact Hi.
  - rewrite nth_error_app2 by lia. rewrite Nat.sub_diag. reflexivity.
Qed.

Lemma swallow_all_ok :
  forall (m : M unit) w,
    exists w', try_except m (fun _ => ret tt) w = (Ok tt, w').
Proof.
  intros m w. unfold try_except.
  destruct (m w) as [[[] | e] w']; eexists; reflexivity.
Qed.

Lemma register_folder_ok :
  forall files w, exists w', api.register_folder files w = (Ok tt, w').
Proof.
  induction files as [|f rest IH]; intros w.
  - exists w. reflexivity.
  - cbn [api.register_folder]. unfold bind at 1.
    destruct (api.is_image_name (file_name f)).
    + destruct (swallow_all_ok
                  (bind (api._register_face (file_root f) (file_image f))
                        (fun _ => ret tt)) w) as [w1 H1].
      rewrite H1. apply IH.
    + apply IH.
Qed.

(** The startup of src/api.py fails on its initial load or on listing the
    folder, and on nothing else.  When the load cannot reach the store it
    raises 500, the folder is not listed and both lists are left empty.
    When the load succeeded and the folder cannot be listed, the error of
    [os.listdir] leaves the handler, with the gallery loaded and nothing
    registered.  When both succeeded the startup returns normally: the loop
    over the folder drops every exception of a registration. *)
Theorem api_startup_failures :
  forall listing w,
    (forall files w0, exists w', api.register_folder files w0 = (Ok tt, w')) /\
    (connect_ok w = false ->
     api.startup_event listing w =
       (Raise (HTTPException 500
                 ("No se pudo conectar a la base de datos: " ++ CONNECT_FAILED)),
        connected (set_cache [] [] w))) /\
    (connect_ok w = true ->
     match listing with
     | inr files => fst (api.startup_event listing w) = Ok tt
     | inl e =>
         api.startup_event listing w =
           (Raise (OSError e), snd (api.load_known_faces_from_db w)) /\
         table (snd (api.startup_event listing w)) = table w
     end).
Proof.
  intros listing w. split; [intros files w0; apply register_folder_ok|]. split.
  - intros Hdown. unfold api.startup_event, bind.
    rewrite api_load_run, Hdown. reflexivity.
  - intros Hup. unfold api.startup_event, bind. rewrite api_load_run, Hup.
    destruct listing as [e | files].
    + split; reflexivity.
    + destruct (register_folder_ok files
                  (set_cache (map (fun row => api.np_array (snd row))
                                (database.select_not_null (table w)))
                     (map fst (database.select_not_null (table w))) (connected w)))
        as [w' Hw'].
      rewrite Hw'. reflexivity.
Qed.

End LegacyRegistration.

(** ** src/main.py: a cache that is never filled *)

Section ThirdService.
Context {lib : FaceLib}.

Import face_utils.
Local Open Scope R_scope.

(** Unpacking a list of arrays, or a list of names, never binds a Python
    list to [embedding]. *)
Lemma unpack3_no_list :
  forall (db_faces : list Embedding * list string) item face_id name embedding,
    In item (main.as_items db_faces) ->
    main.unpack3 item = Ok (face_id, name, embedding) ->
    main.is_list_or_tuple embedding = false.
Proof.
  intros [encs names] item face_id name embedding Hin Hun.
  unfold main.as_items in Hin. simpl in Hin.
  destruct Hin as [<- | [<- | []]].
  - destruct encs as [|a [|b [|c [|d rest]]]]; simpl in Hun; try discriminate.
    injection Hun as _ _ <-. reflexivity.
  - destruct names as [|a [|b [|c [|d rest]]]]; simpl in Hun; try discriminate.
    injection Hun as _ _ <-. reflexivity.
Qed.

Lemma collect_faces_appends_nothing :
  forall items s,
    (forall item face_id name embedding,
        In item items ->
        main.unpack3 item = Ok (face_id, name, embedding) ->
        main.is_list_or_tuple embedding = false) ->
    exists r, main.collect_faces items s = (r, s).
Proof.
  induction items as [|item rest IH]; intros s Hno.
  - exists (Ok tt). reflexivity.
  - cbn [main.collect_faces].
    destruct (main.unpack3 item) as [[[face_id name] embedding] | e] eqn:Hun.
    + rewrite (Hno item face_id name embedding (or_introl eq_refl) Hun).
      unfold main.sbind at 1. unfold main.sret at 1.
      apply IH. intros i a b c Hi. apply Hno. right. exact Hi.
    + exists (Raise e). reflexivity.
Qed.

Lemma main_load_run :
  forall s,
    main.load_known_faces s =
      (Ok tt, {| main.world := connected (add_call CallLoad (main.world s));
                 main.known_faces := [] |}).
Proof.
  intros s. unfold main.load_known_faces.
  unfold main.sbind at 1. unfold main.write_known_faces at 1.
  unfold main.stry, main.sbind, main.on_store. cbn [main.world main.known_faces].
  rewrite load_run. destruct (connect_ok (main.world s)); [|reflexivity].
  destruct (collect_faces_appends_nothing
              (main.as_items (gallery_of (table (main.world s))))
              {| main.world := connected (add_call CallLoad (main.world s));
                 main.known_faces := [] |}
              (unpack3_no_list (gallery_of (table (main.world s))))) as [r Hr].
  rewrite Hr. destruct r as [[]|e]; reflexivity.
Qed.

(** [load_known_faces] of src/main.py never fills the cache: whatever the
    table holds and whether or not the store answers, it returns normally,
    asks the store for one load and leaves [known_faces] empty.  The loop
    unpacks the pair of lists returned by the store as if it were a list of
    (id, name, embedding) triples. *)
Theorem main_load_leaves_cache_empty :
  forall s,
    fst (main.load_known_faces s) = Ok tt /\
    main.known_faces (snd (main.load_known_faces s)) = [] /\
    table (main.world (snd (main.load_known_faces s))) = table (main.world s) /\
    store_calls (main.world (snd (main.load_known_faces s))) =
      CallLoad :: store_calls (main.world s) /\
    fst (main.list_faces (snd (main.load_known_faces s))) = Ok (0%nat, []).
Proof.
  intros s. rewrite main_load_run. repeat split.
Qed.

Lemma match_faces_empty :
  forall pairs : list (Embedding * Location),
    main.match_faces [] pairs =
      Ok (map (fun p => {| main.match_person_id := None;
                           main.match_name := main.UNKNOWN;
                           main.match_confidence := 0;
                           main.match_distance := None;
                           main.match_location := snd p |}) pairs).
Proof.
  induction pairs as [|[enc loc] rest IH]; [reflexivity|].
  cbn [main.match_faces main.match_face]. rewrite IH. reflexivity.
Qed.

Lemma main_recognize_empty :
  forall file s contents image locs e0 encs,
    main.known_faces s = [] ->
    upload_read file = inr contents ->
    load_image_file contents = inr image ->
    face_locations image = inr locs ->
    face_encodings image locs = inr (e0 :: encs) ->
    main.recognize_face file s =
      (Ok {| main.rec_status := "success";
             main.rec_results :=
               map (fun p => {| main.match_person_id := None;
                                main.match_name := main.UNKNOWN;
                                main.match_confidence := 0;
                                main.match_distance := None;
                                main.match_location := snd p |})
                   (combine (e0 :: encs) locs);
             main.rec_total_faces :=
               Nat.min (List.length (e0 :: encs)) (List.length locs) |}, s).
Proof.
  intros file s contents image locs e0 encs Hempty Hread Himg Hlocs Hencs.
  unfold main.recognize_face. rewrite Hread, Himg, Hlocs, Hencs.
  unfold main.sbind, main.read_known_faces. rewrite Hempty.
  rewrite match_faces_empty. unfold main.sret.
  rewrite length_map, length_combine. reflexivity.
Qed.

(** Enrolling through src/main.py stores the face but never makes it
    recognisable: on a reachable store, a photo with a face is saved under
    the name with its vector and the handler answers success with the row's
    id, yet [known_faces] is empty afterwards, and recognising the very same
    upload right after reports every face of it as "Desconocido", with no id
    and no distance. *)
Theorem main_enrolled_face_not_recognised :
  forall name file s contents image loc locs enc encs,
    upload_read file = inr contents ->
    load_image_file contents = inr image ->
    face_locations image = inr (loc :: locs) ->
    face_encodings image (loc :: locs) = inr (enc :: encs) ->
    connects (main.world s) = [] ->
    exists resp s1 r,
      main.register_face name file s = (Ok resp, s1) /\
      main.reg_name resp = name /\
      (exists row, In row (table (main.world s1)) /\
                   row_id row = main.reg_person_id resp /\
                   row_nombre row = name /\
                   row_embedding row = DbList enc) /\
      main.known_faces s1 = [] /\
      main.recognize_face file s1 = (Ok r, s1) /\
      main.rec_total_faces r = Datatypes.S (Nat.min (List.length encs) (List.length locs)) /\
      Forall (fun m => main.match_name m = main.UNKNOWN /\
                       main.match_person_id m = None /\
                       main.match_distance m = None) (main.rec_results r).
Proof.
  intros name file s contents image loc locs enc encs
         Hread Himg Hlocs Hencs Hup.
  assert (Hok : connect_ok (main.world s) = true)
    by (unfold connect_ok; rewrite Hup; reflexivity).
  unfold main.register_face. rewrite Hread, Himg.
  unfold main.face_encodings_of. rewrite Hlocs, Hencs.
  unfold main.stry at 1. unfold main.sbind at 1. unfold main.stry at 1.
  unfold main.on_store at 1. rewrite save_run. cbv zeta. rewrite Hok.
  set (w1 := connected (add_call (CallSave name) (main.world s))).
  destruct (find (database.has_nombre name) (table (main.world s))) as [row|] eqn:Hfind;
    unfold main.sbind at 1; unfold main.stry at 1; rewrite main_load_run;
    unfold main.sret; cbn [main.world main.known_faces].
  - do 3 eexists. split; [reflexivity|]. split; [reflexivity|].
    cbn [main.reg_person_id main.world main.known_faces table set_table connected
         set_connects add_call].
    split.
    { apply find_some in Hfind. destruct Hfind as [Hin Hn].
      exists (database.update_embedding (row_id row) enc row).
      split; [apply in_map; exact Hin|].
      unfold database.update_embedding, database.has_id. rewrite Z.eqb_refl.
      unfold database.has_nombre in Hn. apply String.eqb_eq in Hn.
      repeat split; assumption. }
    split; [reflexivity|].
    split; [apply (main_recognize_empty file _ contents image (loc :: locs) enc encs);
            solve [reflexivity | assumption]|].
    split; [reflexivity|].
    apply Forall_forall. intros m Hm. apply in_map_iff in Hm.
    destruct Hm as (p & <- & _). repeat split.
  - do 3 eexists. split; [reflexivity|]. split; [reflexivity|].
    cbn [main.reg_person_id main.world main.known_faces table set_table connected
         set_connects add_call].
    split.
    { eexists. split; [apply in_or_app; right; left; reflexivity|].
      repeat split. }
    split; [reflexivity|].
    split; [apply (main_recognize_empty file _ contents image (loc :: locs) enc encs);
            solve [reflexivity | assumption]|].
    split; [reflexivity|].
    apply Forall_forall. intros m Hm. apply in_map_iff in Hm.
    destruct Hm as (p & <- & _). repeat split.
Qed.

(** [recognize_face] of src/main.py never answers 400: its only handler is
    [except Exception], so the 400 it raises for an image without faces, like
    every other failure, leaves as a 500; and it never changes the server. *)
Theorem main_recognize_failures_are_500 :
  forall file s,
    snd (main.recognize_face file s) = s /\
    match fst (main.recognize_face file s) with
    | Ok r => main.rec_total_faces r = List.length (main.rec_results r)
    | Raise (HTTPException c _) => c = 500%Z
    | Raise _ => False
    end /\
    (forall contents image locs,
        upload_read file = inr contents ->
        load_image_file contents = inr image ->
        face_locations image = inr locs ->
        face_encodings image locs = inr [] ->
        fst (main.recognize_face file s) =
          Raise (HTTPException 500
                   ("Error interno del servidor: " ++
                    http_exc_str 400 "No se encontraron rostros en la imagen"))).
Proof.
  intros file s. split; [|split].
  - unfold main.recognize_face.
    destruct (upload_read file) as [e | contents]; [reflexivity|].
    destruct (load_image_file contents) as [e | image]; [reflexivity|].
    destruct (face_locations image) as [e | locs]; [reflexivity|].
    destruct (face_encodings image locs) as [e | [|e0 encs]]; try reflexivity.
    unfold main.sbind, main.read_known_faces, main.sret.
    destruct (main.match_faces (main.known_faces s) (combine (e0 :: encs) locs));
      reflexivity.
  - unfold main.recognize_face.
    destruct (upload_read file) as [e | contents]; [reflexivity|].
    destruct (load_image_file contents) as [e | image]; [reflexivity|].
    destruct (face_locations image) as [e | locs]; [reflexivity|].
    destruct (face_encodings image locs) as [e | [|e0 encs]]; try reflexivity.
    unfold main.sbind, main.read_known_faces, main.sret.
    destruct (main.match_faces (main.known_faces s) (combine (e0 :: encs) locs));
      reflexivity.
  - intros contents image locs Hread Himg Hlocs Hencs.
    unfold main.recognize_face. rewrite Hread, Himg, Hlocs, Hencs. reflexivity.
Qed.

(** [delete_persona] never answers 404: the 404 it raises for an id that is
    not in the table is caught by its own [except Exception] and leaves as a
    500 carrying the 404's text; an unreachable store gives a 500 as well;
    and a successful delete removes the rows with that id and leaves the
    cache empty. *)
Theorem main_delete_never_404 :
  forall persona_id s,
    (connect_ok (main.world s) = true ->
     existsb (database.has_id persona_id) (table (main.world s)) = false ->
     fst (main.delete_persona persona_id s) =
       Raise (HTTPException 500
                ("Error interno del servidor al eliminar persona: " ++
                 http_exc_str 404
                   ("Persona con ID " ++ str_of_Z persona_id ++ " no encontrada."))) /\
     table (main.world (snd (main.delete_persona persona_id s))) = table (main.world s)) /\
    (connect_ok (main.world s) = true ->
     existsb (database.has_id persona_id) (table (main.world s)) = true ->
     fst (main.delete_persona persona_id s) =
       Ok ("Persona con ID " ++ str_of_Z persona_id ++ " eliminada exitosamente.")%string /\
     table (main.world (snd (main.delete_persona persona_id s))) =
       filter (fun r => negb (database.has_id persona_id r)) (table (main.world s)) /\
     main.known_faces (snd (main.delete_persona persona_id s)) = []) /\
    match fst (main.delete_persona persona_id s) with
    | Ok _ => True
    | Raise (HTTPException c _) => c = 500%Z
    | Raise _ => False
    end.
Proof.
  intros persona_id s. unfold main.delete_persona.
  unfold main.stry, main.sbind, main.on_store. rewrite delete_run. cbv zeta.
  rewrite rowcount_positive.
  destruct (connect_ok (main.world s)) eqn:Hok.
  - destruct (existsb (database.has_id persona_id) (table (main.world s))) eqn:Hex.
    + rewrite main_load_run. unfold main.sret. cbn.
      split; [intros _ H; discriminate|]. split; [|exact I].
      intros _ _. repeat split.
    + unfold main.sraise. cbn [fst snd main.world table set_table].
      split; [|split; [intros _ H; discriminate | reflexivity]].
      intros _ _. split; [reflexivity|].
      apply filter_all_true. apply forallb_forall. intros r Hr.
      apply Bool.negb_true_iff.
      destruct (database.has_id persona_id r) eqn:E; [|reflexivity].
      assert (existsb (database.has_id persona_id) (table (main.world s)) = true)
        by (apply existsb_exists; exists r; auto).
      congruence.
  - unfold main.sraise. cbn [fst snd].
    split; [intros H; discriminate|]. split; [intros H; discriminate | reflexivity].
Qed.

End ThirdService.

(** ** src/app/photo_cleaner.py *)

Section PhotoCleaner.

Import photo_cleaner.

(** Whether the loop removes the entry. *)
Let removed (database_names : list string) (e : Entry) : bool :=
  is_orphan database_names e && removable e.

Lemma clean_entries_filter :
  forall entries database_names cleaned_count,
    clean_entries entries database_names cleaned_count =
      (filter (fun e => negb (removed database_names e)) entries,
       (cleaned_count + List.length (filter (removed database_names) entries))%nat).
Proof.
  induction entries as [|e rest IH]; intros names n.
  - cbn. f_equal. lia.
  - cbn [clean_entries filter].
    assert (Hr : removed names e = is_orphan names e && removable e) by reflexivity.
    rewrite Hr.
    destruct (is_orphan names e); [destruct (removable e)|];
      cbn [andb negb]; rewrite IH; cbn [List.length]; f_equal; lia.
Qed.

(** The cleaner only ever removes files whose stem is not a registered
    name: every file whose stem is in [database_names], every entry that is
    not a file, every file whose suffix is not an image suffix and every
    file that cannot be removed is still in the folder afterwards, and
    nothing appears in it; the count it logs is the number of entries that
    disappeared; and a second run over what is left removes nothing. *)
Theorem cleanup_spares_registered_photos :
  forall entries database_names,
    exists left n,
      cleanup_orphaned_photos (Some entries) database_names = (Some left, n) /\
      (forall e, In e left -> In e entries) /\
      (forall e, In e entries ->
                 str_in (entry_stem e) database_names = true \/
                 is_file e = false \/
                 str_in (lower (entry_suffix e)) IMAGE_SUFFIXES = false \/
                 removable e = false ->
                 In e left) /\
      (forall e, In e entries -> In e left \/
                 (str_in (entry_stem e) database_names = false /\ is_file e = true)) /\
      (List.length left + n = List.length entries)%nat /\
      cleanup_orphaned_photos (Some left) database_names = (Some left, 0%nat).
Proof.
  intros entries names. unfold cleanup_orphaned_photos.
  rewrite clean_entries_filter. do 2 eexists. split; [reflexivity|].
  split; [|split; [|split; [|split]]].
  - intros e He. apply filter_In in He. tauto.
  - intros e He Hkeep. apply filter_In. split; [exact He|].
    apply Bool.negb_true_iff. unfold removed, is_orphan.
    destruct Hkeep as [H | [H | [H | H]]]; rewrite H;
      repeat first [rewrite Bool.andb_false_r | rewrite Bool.andb_false_l
                   | reflexivity | cbn [negb]].
  - intros e He. destruct (removed names e) eqn:Hrem.
    + right. unfold removed, is_orphan in Hrem.
      apply andb_true_iff in Hrem. destruct Hrem as [Horph _].
      apply andb_true_iff in Horph. destruct Horph as [Hfs Hn].
      apply andb_true_iff in Hfs. destruct Hfs as [Hf _].
      apply Bool.negb_true_iff in Hn. split; assumption.
    + left. apply filter_In. split; [exact He|]. rewrite Hrem. reflexivity.
  - cbn [Nat.add]. clear. induction entries as [|e rest IH]; [reflexivity|].
    cbn [filter]. destruct (removed names e); cbn [negb List.length]; lia.
  - rewrite clean_entries_filter. f_equal.
    + f_equal. apply filter_all_true. apply forallb_forall.
      intros e He. apply filter_In in He. tauto.
    + cbn [Nat.add]. clear. induction entries as [|e rest IH]; [reflexivity|].
      cbn [filter]. destruct (removed names e) eqn:Hrem; cbn [negb]; [exact IH|].
      cbn [filter]. rewrite Hrem. exact IH.
Qed.

End PhotoCleaner.

(** ** The further theorems at concrete requests *)

Section FurtherInstances.

Import face_utils.
Local Open Scope R_scope.

Lemma known_iff_within_witness :
  recognize_face [0.3] gallery_encs gallery_names FACE_RECOGNITION_TOLERANCE =
    Ok alice_match /\
  (is_known alice_match = true <->
   exists d, distance alice_match = Some d /\ d <= FACE_RECOGNITION_TOLERANCE) /\
  (distance alice_match = None <-> gallery_encs = []) /\
  (forall d, distance alice_match = Some d ->
     0 <= d /\
     (exists e, In e gallery_encs /\ d = euclid e [0.3]) /\
     (forall e, In e gallery_encs -> d <= euclid e [0.3])).
Proof.
  split; [exact recognize_alice|].
  exact (known_iff_within [0.3] gallery_encs gallery_names
           FACE_RECOGNITION_TOLERANCE alice_match recognize_alice).
Defined.

Lemma tolerance_below_one : FACE_RECOGNITION_TOLERANCE <= 1.
Proof. unfold FACE_RECOGNITION_TOLERANCE. lra. Qed.

Lemma tolerance_monotone_witness :
  FACE_RECOGNITION_TOLERANCE <= 1 /\
  recognize_face [0.3] gallery_encs gallery_names 1 = Ok alice_match.
Proof.
  split; [exact tolerance_below_one|].
  exact (proj1 (tolerance_monotone [0.3] gallery_encs gallery_names
                  FACE_RECOGNITION_TOLERANCE 1 alice_match tolerance_below_one)
           recognize_alice eq_refl).
Defined.

Lemma save_then_load_witness :
  connect_ok world_alice = true /\
  exists person_id w',
    database.save_face_to_db "carol" [1] world_alice = (Ok person_id, w') /\
    person_id = 3%Z /\
    In ("carol"%string, [1])
       (combine (snd (gallery_of (table w'))) (fst (gallery_of (table w')))).
Proof.
  split; [reflexivity|].
  destruct (save_then_load "carol" [1] world_alice eq_refl)
    as (person_id & w' & Hrun & _ & Hin & Hnew & _).
  exists person_id, w'. split; [exact Hrun|]. split; [|exact Hin].
  exact (proj1 (Hnew eq_refl)).
Defined.

Lemma save_twice_witness :
  connects world_alice = [] /\
  forallb (fun r => negb (database.has_id (next_id world_alice) r))
    (table world_alice) = true /\
  table (snd (database.save_face_to_db "carol" [1]
                (snd (database.save_face_to_db "carol" [1] world_alice)))) =
    table (snd (database.save_face_to_db "carol" [1] world_alice)).
Proof.
  split; [reflexivity|]. split; [reflexivity|].
  exact (proj1 (proj2 (save_twice "carol" [1] world_alice eq_refl
                         (fun _ => eq_refl)))).
Defined.

Lemma delete_removes_id_witness :
  connect_ok world_alice = true /\
  exists w',
    database.delete_face_from_db 1 world_alice = (Ok true, w') /\
    table w' = [bob_row].
Proof.
  split; [reflexivity|].
  destruct (delete_removes_id 1 world_alice eq_refl) as (w' & Hrun & Htable & _).
  exists w'. split; [exact Hrun | exact Htable].
Defined.

Lemma store_down_changes_nothing_witness :
  connect_ok world_down = false /\
  fst (database.save_face_to_db "carol" [1] world_down) =
    Raise (Psycopg2Error CONNECT_FAILED) /\
  table (snd (database.delete_face_from_db 1 world_down)) = table world_down.
Proof.
  split; [reflexivity|].
  destruct (store_down_changes_nothing world_down eq_refl) as (_ & Hsave & Hdel).
  split; [exact (proj1 (Hsave "carol"%string [1])) | exact (proj1 (proj2 (Hdel 1%Z)))].
Defined.

Lemma delete_with_failed_reload_witness :
  connect_ok (connected (connected world_flaky2)) = false /\
  find (database.has_nombre "alice") (table world_flaky2) = Some alice_row /\
  fst (app_main.delete_face_by_name (lib := byte_lib) "alice" world_flaky2) =
    Ok ("Persona '" ++ "alice" ++ "' eliminada exitosamente de la DB.")%string /\
  table (snd (app_main.delete_face_by_name (lib := byte_lib) "alice" world_flaky2)) =
    [bob_row] /\
  In "alice"%string
     (known_face_names (snd (app_main.delete_face_by_name (lib := byte_lib) "alice"
                               world_flaky2))).
Proof.
  split; [reflexivity|]. split; [reflexivity|].
  destruct (@delete_with_failed_reload byte_lib "alice" world_flaky2 alice_row
              eq_refl eq_refl eq_refl eq_refl) as (Hres & Htable & _ & Hstale).
  split; [exact Hres|]. split; [exact Htable|].
  apply Hstale. left. reflexivity.
Defined.

Lemma api_loader_agrees_witness :
  connect_ok world_boot = true /\
  fst (api.load_known_faces_from_db world_boot) = Ok tt /\
  known_face_names (snd (api.load_known_faces_from_db world_boot)) = ["alice"%string] /\
  cache (snd (api.load_known_faces_from_db world_boot)) = gallery_of (table world_boot).
Proof.
  split; [reflexivity|].
  destruct (api_loader_agrees world_boot eq_refl) as (Hres & Hnames & _ & _ & Hcache).
  split; [exact Hres|]. split; [exact Hnames|]. exact (Hcache eq_refl).
Defined.

Lemma api_register_without_face_erases_witness :
  connects world_alice = [] /\
  In "alice"%string (known_face_names world_alice) /\
  exists resp w',
    api._register_face (lib := byte_lib) (cv := byte_cv2) "alice" local_no_face
      world_alice = (Ok resp, w') /\
    (exists r, In r (table w') /\ row_nombre r = "alice"%string) /\
    (forall r, In r (table w') -> row_nombre r = "alice"%string ->
               row_embedding r = DbNull) /\
    (In "alice"%string (known_face_names w') -> False).
Proof.
  split; [reflexivity|]. split; [left; reflexivity|].
  exact (@api_register_without_face_erases byte_lib byte_cv2 "alice" local_no_face
           [Byte.x00] [Byte.x00] world_alice eq_refl eq_refl eq_refl eq_refl).
Defined.

Lemma api_register_has_no_guard_witness :
  connects world_alice = [] /\
  existsb (database.has_nombre "carol") (table world_alice) = false /\
  exists resp w',
    api._register_face (lib := byte_lib) (cv := byte_cv2) "carol" local_same
      world_alice = (Ok resp, w') /\
    known_face_names w' = ["alice"; "carol"]%string /\
    known_face_encodings w' = [[0]; [0 / 10]] /\
    euclid [0] [0 / 10] = 0.
Proof.
  split; [reflexivity|]. split; [reflexivity|].
  destruct (@api_register_has_no_guard byte_lib byte_cv2 "carol" local_same
              [Byte.x01; Byte.x00] [Byte.x01; Byte.x00] tt [] [0 / 10] []
              world_alice eq_refl eq_refl eq_refl eq_refl eq_refl eq_refl eq_refl)
    as (resp & w' & Hrun & _ & Hencs & Hnames & _).
  exists resp, w'. split; [exact Hrun|]. split; [exact Hnames|].
  split; [exact Hencs | exact same_as_alice].
Defined.

Lemma main_enrolled_face_not_recognised_witness :
  connects (main.world server_alice) = [] /\
  exists resp s1 r,
    main.register_face (lib := byte_lib) "carol" upload_near server_alice =
      (Ok resp, s1) /\
    main.reg_name resp = "carol"%string /\
    main.known_faces s1 = [] /\
    main.recognize_face (lib := byte_lib) upload_near s1 = (Ok r, s1) /\
    main.rec_total_faces r = 1%nat /\
    Forall (fun m => main.match_name m = main.UNKNOWN /\
                     main.match_person_id m = None /\
                     main.match_distance m = None) (main.rec_results r).
Proof.
  split; [reflexivity|].
  destruct (@main_enrolled_face_not_recognised byte_lib "carol" upload_near
              server_alice [Byte.x01; Byte.x05] [Byte.x01; Byte.x05] tt []
              [5 / 10] [] eq_refl eq_refl eq_refl eq_refl eq_refl)
    as (resp & s1 & r & Hreg & Hname & _ & Hempty & Hrec & Htotal & Hall).
  exists resp, s1, r.
  split; [exact Hreg|]. split; [exact Hname|]. split; [exact Hempty|].
  split; [exact Hrec|]. split; [exact Htotal | exact Hall].
Defined.

Lemma recognize_endpoint_outcomes_witness :
  fst (app_main.recognize_face (lib := byte_lib) upload_no_face world_alice) =
    Ok {| name := "No Rostro Detectado"; is_known := false; distance := None |} /\
  snd (app_main.recognize_face (lib := byte_lib) upload_no_face world_alice) =
    world_alice.
Proof.
  destruct (@recognize_endpoint_outcomes byte_lib upload_no_face world_alice)
    as (Hsame & _ & Hcases).
  split; [|exact Hsame].
  exact (proj1 (Hcases [Byte.x00] [Byte.x00] eq_refl eq_refl eq_refl) eq_refl).
Defined.

Lemma api_delete_face_cases_witness :
  fst (api.delete_face "zoe" world_alice) =
    Raise (HTTPException 404 ("Persona con nombre '" ++ "zoe" ++ "' no encontrada.")) /\
  fst (api.delete_face "alice" world_alice) =
    Ok ("Persona '" ++ "alice" ++ "' eliminada exitosamente de la DB.")%string /\
  known_face_names (snd (api.delete_face "alice" world_alice)) = [] /\
  cache (snd (api.delete_face "alice" world_flaky)) = ([], []).
Proof.
  destruct (api_delete_face_cases "zoe" world_alice) as (_ & Hmissing & _).
  destruct (api_delete_face_cases "alice" world_alice) as (_ & _ & Hfound).
  destruct (api_delete_face_cases "alice" world_flaky) as (_ & _ & Hflaky).
  split; [exact (proj1 (Hmissing eq_refl eq_refl))|].
  destruct (Hfound eq_refl eq_refl) as (_ & Hok & _).
  destruct (Hflaky eq_refl eq_refl) as (_ & _ & Hdown).
  split; [exact (proj1 (Hok eq_refl))|].
  split; [exact (proj2 (Hok eq_refl)) | exact (proj2 (Hdown eq_refl))].
Defined.

Lemma api_startup_failures_witness :
  fst (api.startup_event (lib := byte_lib) (cv := byte_cv2) (inr folder_two)
         world_alice) = Ok tt /\
  fst (api.startup_event (lib := byte_lib) (cv := byte_cv2)
         (inl "No such file or directory") world_alice) =
    Raise (OSError "No such file or directory") /\
  api.startup_event (lib := byte_lib) (cv := byte_cv2) (inr folder_two) world_down =
    (Raise (HTTPException 500
              ("No se pudo conectar a la base de datos: " ++ CONNECT_FAILED)),
     connected (set_cache [] [] world_down)).
Proof.
  split; [|split].
  - exact (proj2 (proj2 (@api_startup_failures byte_lib byte_cv2 (inr folder_two)
                           world_alice)) eq_refl).
  - rewrite (proj1 (proj2 (proj2 (@api_startup_failures byte_lib byte_cv2
                                    (inl "No such file or directory") world_alice))
                      eq_refl)).
    reflexivity.
  - exact (proj1 (proj2 (@api_startup_failures byte_lib byte_cv2 (inr folder_two)
                           world_down)) eq_refl).
Defined.

Lemma main_recognize_failures_are_500_witness :
  fst (main.recognize_face (lib := byte_lib) upload_no_face server_alice) =
    Raise (HTTPException 500
             ("Error interno del servidor: " ++
              http_exc_str (FaceLib := byte_lib) 400
                "No se encontraron rostros en la imagen")).
Proof.
  exact (proj2 (proj2 (@main_recognize_failures_are_500 byte_lib upload_no_face
                         server_alice))
           [Byte.x00] [Byte.x00] [] eq_refl eq_refl eq_refl eq_refl).
Defined.

Lemma main_delete_never_404_witness :
  fst (main.delete_persona (lib := byte_lib) 9 server_alice) =
    Raise (HTTPException 500
             ("Error interno del servidor al eliminar persona: " ++
              http_exc_str (FaceLib := byte_lib) 404
                ("Persona con ID " ++ str_of_Z 9 ++ " no encontrada."))) /\
  fst (main.delete_persona (lib := byte_lib) 1 server_alice) =
    Ok ("Persona con ID " ++ str_of_Z 1 ++ " eliminada exitosamente.")%string /\
  table (main.world (snd (main.delete_persona (lib := byte_lib) 1 server_alice))) =
    [bob_row].
Proof.
  destruct (@main_delete_never_404 byte_lib 9 server_alice) as (Hmissing & _ & _).
  destruct (@main_delete_never_404 byte_lib 1 server_alice) as (_ & Hfound & _).
  split; [exact (proj1 (Hmissing eq_refl eq_refl))|].
  destruct (Hfound eq_refl eq_refl) as (Hres & Htable & _).
  split; [exact Hres | exact Htable].
Defined.

End FurtherInstances.
